(** * rby1ftrack: head-tracking datagram receivers

    A shallow embedding of the two scripts of the repository,

    - [look_camera.py]: [receive_looking_status], the attention-stream
      receiver that prints the gaze status when it changes;
    - [robot_controller.py]: [control_robot], the actuator loop, and
      [visualize_head] with its timer callback [update], the render tick.

    Python exceptions are modelled by a small error monad, the sockets by the
    list of events that [recvfrom] delivers, mutable objects (the latched
    status, the transforms of the mesh items, the robot) by explicit state
    passing.

    Numbers.  A decoded binary32 field is kept as the [spec_float] it denotes.
    The arithmetic of the render tick ([np.cos], [np.sin], [np.radians], [@],
    [+]) is written once over an interface [Scalar]; the structural results
    hold for every instance (any deterministic arithmetic, IEEE doubles
    included), the algebraic ones are proved for the instance of exact real
    arithmetic. *)

From Stdlib Require Import ZArith List Ascii String Bool Lia.
From Stdlib Require Import Reals Lra.
From Stdlib Require Import Init.Byte.
From Stdlib Require Import Floats.SpecFloat.
Import ListNotations.

Set Implicit Arguments.
Open Scope string_scope.
Open Scope list_scope.

(* ================================================================== *)
(** * Exceptions *)
(* ================================================================== *)

(** The exception classes that the scripts can meet.  [KeyboardInterrupt] is
    the only one that does not derive from [Exception]. *)
Inductive exn : Type :=
  | struct_error
  | ValueError
  | BlockingIOError
  | OSError
  | RuntimeError
  | KeyboardInterrupt.

(** [isinstance(e, Exception)]: what [except Exception] catches. *)
Definition is_Exception (e : exn) : bool :=
  match e with
  | KeyboardInterrupt => false
  | _ => true
  end.

(** A computation either returns a value or raises. *)
Inductive result (A : Type) : Type :=
  | Ok (a : A)
  | Raise (e : exn).
Arguments Ok {A} a.
Arguments Raise {A} e.

Definition bind {A B : Type} (r : result A) (k : A -> result B) : result B :=
  match r with
  | Ok a => k a
  | Raise e => Raise e
  end.

Notation "x <- c ;; k" := (bind c (fun x => k))
  (at level 61, c at next level, right associativity).
Notation "' p <- c ;; k" := (bind c (fun x => match x with p => k end))
  (at level 61, p pattern, c at next level, right associativity).

Definition is_ok {A : Type} (r : result A) : bool :=
  match r with Ok _ => true | Raise _ => false end.

(* ================================================================== *)
(** * The [struct] module *)
(* ================================================================== *)

(** Python values that [struct.unpack] produces for the formats in use. *)
Inductive pyval : Type :=
  | PyBool (b : bool)
  | PyInt (z : Z)
  | PyFloat (f : spec_float).

(** [sys.byteorder]: a format without prefix is decoded in native order. *)
Inductive byteorder : Type := little | big.

Module struct.

(** The format characters the scripts use. *)
Inductive code : Type :=
  | c_bool      (* '?' : _Bool      *)
  | c_float     (* 'f' : float      *)
  | c_longlong. (* 'q' : long long  *)

Definition code_of_ascii (c : Ascii.ascii) : option code :=
  if Ascii.eqb c "?"%char then Some c_bool
  else if Ascii.eqb c "f"%char then Some c_float
  else if Ascii.eqb c "q"%char then Some c_longlong
  else None.

Fixpoint parse (fmt : string) : option (list code) :=
  match fmt with
  | EmptyString => Some []
  | String c rest =>
      match code_of_ascii c, parse rest with
      | Some k, Some ks => Some (k :: ks)
      | _, _ => None
      end
  end.

(** Native mode: native size and native alignment of the C type, as on the
    64-bit platforms, where a [long long] is aligned on 8 bytes. *)
Definition size (k : code) : nat :=
  match k with
  | c_bool => 1
  | c_float => 4
  | c_longlong => 8
  end.

Definition alignment (k : code) : nat :=
  match k with
  | c_bool => 1
  | c_float => 4
  | c_longlong => 8
  end.

(** Round [off] up to the next multiple of [a]. *)
Definition align (off a : nat) : nat := ((off + a - 1) / a) * a.

(** Offsets of the fields, and the offset after the last one.  No padding
    is added after the last field. *)
Fixpoint layout (off : nat) (ks : list code) : list (nat * code) * nat :=
  match ks with
  | [] => ([], off)
  | k :: rest =>
      let start := align off (alignment k) in
      let '(fields, total) := layout (start + size k) rest in
      ((start, k) :: fields, total)
  end.

Definition calcsize_codes (ks : list code) : nat := snd (layout 0 ks).

Definition calcsize (fmt : string) : result nat :=
  match parse fmt with
  | Some ks => Ok (calcsize_codes ks)
  | None => Raise struct_error
  end.

(** Unsigned value of a run of bytes, least significant byte first. *)
Fixpoint le_to_Z (bs : list byte) : Z :=
  match bs with
  | [] => 0
  | b :: rest => Z.of_N (Byte.to_N b) + 256 * le_to_Z rest
  end.

Definition bytes_to_Z (bo : byteorder) (bs : list byte) : Z :=
  match bo with
  | little => le_to_Z bs
  | big => le_to_Z (rev bs)
  end.

Definition slice (off len : nat) (data : list byte) : list byte :=
  firstn len (skipn off data).

(** The IEEE 754 binary32 value with bit pattern [w]. *)
Definition float_of_bits (w : Z) : spec_float :=
  let sign := Z.testbit w 31 in
  let e := Z.land (Z.shiftr w 23) 255 in
  let frac := Z.land w (2 ^ 23 - 1) in
  if (e =? 255)%Z then
    if (frac =? 0)%Z then S754_infinity sign else S754_nan
  else if (e =? 0)%Z then
    match frac with
    | Zpos m => S754_finite sign m (-149)
    | _ => S754_zero sign
    end
  else
    match (frac + 2 ^ 23)%Z with
    | Zpos m => S754_finite sign m (e - 150)
    | _ => S754_nan
    end.

(** Two's complement reading of a 64-bit word. *)
Definition signed64 (w : Z) : Z :=
  if (w <? 2 ^ 63)%Z then w else (w - 2 ^ 64)%Z.

Definition decode (bo : byteorder) (k : code) (bs : list byte) : pyval :=
  match k with
  | c_bool => PyBool (negb (le_to_Z bs =? 0)%Z)
  | c_float => PyFloat (float_of_bits (bytes_to_Z bo bs))
  | c_longlong => PyInt (signed64 (bytes_to_Z bo bs))
  end.

Definition unpack_codes (bo : byteorder) (ks : list code)
    (data : list byte) : result (list pyval) :=
  if Nat.eqb (List.length data) (calcsize_codes ks) then
    Ok (map (fun '(off, k) => decode bo k (slice off (size k) data))
            (fst (layout 0 ks)))
  else Raise struct_error.

(** [struct.unpack(fmt, data)]: the buffer must have exactly the size of
    the format. *)
Definition unpack (bo : byteorder) (fmt : string) (data : list byte)
    : result (list pyval) :=
  match parse fmt with
  | Some ks => unpack_codes bo ks data
  | None => Raise struct_error
  end.

End struct.

(** [a, b = <tuple>] with the types the two call sites expect. *)
Definition two_floats (vs : list pyval) : result (spec_float * spec_float) :=
  match vs with
  | [PyFloat a; PyFloat b] => Ok (a, b)
  | _ => Raise ValueError
  end.

Definition bool_and_int (vs : list pyval) : result (bool * Z) :=
  match vs with
  | [PyBool b; PyInt t] => Ok (b, t)
  | _ => Raise ValueError
  end.

(* ================================================================== *)
(** * Sockets and output *)
(* ================================================================== *)

(** What one call of [sock.recvfrom] meets: a datagram, or an exception
    raised inside the call ([BlockingIOError] on a non-blocking socket with
    nothing queued, [OSError], or [KeyboardInterrupt] when the operator
    interrupts a blocked receive). *)
Inductive net_event : Type :=
  | Datagram (data : list byte)
  | RecvRaises (e : exn).

(** [sock.recvfrom(bufsize)]: at most [bufsize] bytes of the datagram. *)
Definition recvfrom (bufsize : nat) (ev : net_event) : result (list byte) :=
  match ev with
  | Datagram data => Ok (firstn bufsize data)
  | RecvRaises e => Raise e
  end.

(** A UDP socket, as far as the scripts observe it. *)
Record socket : Type := Socket { sock_port : Z; sock_closed : bool }.

Definition socket_bind (port : Z) : socket := Socket port false.
Definition socket_close (s : socket) : socket := Socket (sock_port s) true.

(** The lines the scripts print. *)
Inductive entry : Type :=
  | log_listening (port : Z)
  | log_connected
  | log_status (now : string) (text : string)
  | log_stopped
  | log_recv (pan tilt : spec_float)
  | log_update (pan tilt : spec_float)
  | log_error (e : exn).

(** How a receive loop stands after the events delivered so far. *)
Inductive loop_status : Type :=
  | Listening                 (* blocked in [recvfrom], loop alive *)
  | Returned                  (* the function returned *)
  | Propagated (e : exn).     (* an exception left the function *)

(* ================================================================== *)
(** * look_camera.py *)
(* ================================================================== *)

Section LookCamera.

Variable bo : byteorder.

(** [datetime.now()] formatted, at the [i]-th iteration of the loop. *)
Variable clock : nat -> string.

(** [last_status != looking_at_camera], with [last_status] possibly
    [None]. *)
Definition status_differs (last_status : option bool)
    (looking_at_camera : bool) : bool :=
  match last_status with
  | None => true
  | Some b => negb (Bool.eqb b looking_at_camera)
  end.

Definition status_text (looking_at_camera : bool) : string :=
  if looking_at_camera then "LOOKING AT CAMERA"
  else "NOT LOOKING AT CAMERA".

(** Lines 23-28: the latch. *)
Definition latch (i : nat) (last_status : option bool)
    (looking_at_camera : bool) : option bool * list entry :=
  if status_differs last_status looking_at_camera then
    (Some looking_at_camera,
     [log_status (clock i) (status_text looking_at_camera)])
  else (last_status, []).

(** Line 21. *)
Definition unpack_status (data : list byte) : result (bool * Z) :=
  vs <- struct.unpack bo "?q" data ;; bool_and_int vs.

(** Lines 16-28: the [while True] loop, run on the events that arrive. *)
Fixpoint looking_loop (i : nat) (last_status : option bool)
    (evs : list net_event) : option bool * list entry * loop_status :=
  match evs with
  | [] => (last_status, [], Listening)
  | ev :: rest =>
      match (data <- recvfrom 1024 ev ;; unpack_status data) with
      | Raise e => (last_status, [], Propagated e)
      | Ok (looking_at_camera, _) =>
          let '(last1, out1) := latch i last_status looking_at_camera in
          let '(last2, out2, st) := looking_loop (S i) last1 rest in
          (last2, out1 ++ out2, st)
      end
  end.

Record looking_run : Type := LookingRun {
  lr_last_status : option bool;
  lr_output : list entry;
  lr_status : loop_status;
  lr_sock : socket
}.

(** Lines 7-40. *)
Definition receive_looking_status (port : Z) (evs : list net_event)
    : looking_run :=
  let sock := socket_bind port in
  let '(last, out, st) := looking_loop 0 None evs in
  match st with
  | Listening => LookingRun last (log_listening port :: out) Listening sock
  | Propagated KeyboardInterrupt =>
      (* except KeyboardInterrupt, then finally *)
      LookingRun last (log_listening port :: out ++ [log_stopped])
                 Returned (socket_close sock)
  | other =>
      (* finally *)
      LookingRun last (log_listening port :: out) other (socket_close sock)
  end.

(** The transitions of the latch on a run of samples, each with the value
    latched before it and the value latched by it. *)
Fixpoint transitions (last_status : option bool) (samples : list bool)
    : list (option bool * bool) :=
  match samples with
  | [] => []
  | s :: rest =>
      if status_differs last_status s
      then (last_status, s) :: transitions (Some s) rest
      else transitions last_status rest
  end.

End LookCamera.

(** Datagrams of the attention stream as a little-endian sender with native
    alignment packs them: the boolean, 7 bytes of padding, the timestamp. *)
Definition datagram_looking : list byte :=
  [x01; x00; x00; x00; x00; x00; x00; x00;
   x2a; x00; x00; x00; x00; x00; x00; x00].

Definition datagram_away : list byte :=
  [x00; x00; x00; x00; x00; x00; x00; x00;
   x2b; x00; x00; x00; x00; x00; x00; x00].

(** The same two fields packed side by side, 9 bytes. *)
Definition datagram_unpadded : list byte :=
  [x01; x2a; x00; x00; x00; x00; x00; x00; x00].

Definition datagram_of_sample (looking : bool) : net_event :=
  Datagram (if looking then datagram_looking else datagram_away).

(** The status texts among the printed lines. *)
Fixpoint printed_statuses (out : list entry) : list string :=
  match out with
  | [] => []
  | log_status _ text :: rest => text :: printed_statuses rest
  | _ :: rest => printed_statuses rest
  end.

(* ================================================================== *)
(** * robot_controller.py: the actuator loop *)
(* ================================================================== *)

(** One call [robot.set_joint_position(joint, angle)]. *)
Record command : Type := Command { joint : string; angle : spec_float }.

Section ControlRobot.

Variable bo : byteorder.

(** The robot of [rby1_sdk] is an external collaborator: a state and a
    joint-position setter that may raise. *)
Variable Robot : Type.
Variable set_joint_position :
  Robot -> string -> spec_float -> Robot * result unit.

(** Line 24. *)
Definition unpack_angles (data : list byte)
    : result (spec_float * spec_float) :=
  vs <- struct.unpack bo "ff" data ;; two_floats vs.

(** Lines 23-27, the body of the [try]: the robot after it, what was
    printed, the calls made on the robot, and how the body ended. *)
Definition control_body (robot : Robot) (ev : net_event)
    : Robot * list entry * list command * result unit :=
  match (data <- recvfrom 1024 ev ;; unpack_angles data) with
  | Raise e => (robot, [], [], Raise e)
  | Ok (pan_angle, tilt_angle) =>
      let out := [log_recv pan_angle tilt_angle] in
      let '(robot1, r1) := set_joint_position robot "head_0" pan_angle in
      match r1 with
      | Raise e => (robot1, out, [Command "head_0" pan_angle], Raise e)
      | Ok _ =>
          let '(robot2, r2) :=
            set_joint_position robot1 "head_1" tilt_angle in
          (robot2, out,
           [Command "head_0" pan_angle; Command "head_1" tilt_angle], r2)
      end
  end.

(** Lines 22-29: one iteration, with its [except Exception] handler.  The
    last component is the exception that leaves the iteration, if any. *)
Definition control_iteration (robot : Robot) (ev : net_event)
    : Robot * list entry * list command * option exn :=
  let '(robot1, out, cmds, r) := control_body robot ev in
  match r with
  | Ok _ => (robot1, out, cmds, None)
  | Raise e =>
      if is_Exception e then (robot1, out ++ [log_error e], cmds, None)
      else (robot1, out, cmds, Some e)
  end.

(** Lines 21-29: the [while True] loop, run on the events that arrive. *)
Fixpoint control_loop (robot : Robot) (evs : list net_event)
    : Robot * list entry * list command * loop_status :=
  match evs with
  | [] => (robot, [], [], Listening)
  | ev :: rest =>
      let '(robot1, out1, cmds1, raised) := control_iteration robot ev in
      match raised with
      | Some e => (robot1, out1, cmds1, Propagated e)
      | None =>
          let '(robot2, out2, cmds2, st) := control_loop robot1 rest in
          (robot2, out1 ++ out2, cmds1 ++ cmds2, st)
      end
  end.

(** The robot only fails with exceptions of class [Exception]. *)
Definition commands_fail_softly : Prop :=
  forall r j a e,
    snd (set_joint_position r j a) = Raise e -> is_Exception e = true.

Record control_run : Type := ControlRun {
  cr_robot : Robot;
  cr_output : list entry;
  cr_commands : list command;
  cr_status : loop_status;
  cr_sock : socket
}.

(** Lines 11-29; [robot] is the connected robot of lines 12-13.  The
    function has no statement that closes [sock]. *)
Definition control_robot (robot : Robot) (port : Z)
    (evs : list net_event) : control_run :=
  let sock := socket_bind port in
  let '(robot1, out, cmds, st) := control_loop robot evs in
  ControlRun robot1 (log_listening port :: log_connected :: out)
             cmds st sock.

End ControlRobot.

(** Two robots for running the loop: one that accepts every command, one
    whose pan joint rejects every command. *)
Definition obedient_robot (r : unit) (j : string) (a : spec_float)
    : unit * result unit := (r, Ok tt).

Definition stuck_pan_robot (r : unit) (j : string) (a : spec_float)
    : unit * result unit :=
  if String.eqb j "head_0" then (r, Raise RuntimeError) else (r, Ok tt).

(** The orientation datagram of (45.0, -20.0), little-endian. *)
Definition datagram_45_m20 : list byte :=
  [x00; x00; x34; x42; x00; x00; xa0; xc1].

Definition float_45 : spec_float := S754_finite false 11796480 (-18).
Definition float_m20 : spec_float := S754_finite true 10485760 (-19).

(* ================================================================== *)
(** * robot_controller.py: the virtual head *)
(* ================================================================== *)

(** The arithmetic the render tick uses on Python floats. *)
Class Scalar (F : Type) : Type := {
  of_int : Z -> F;              (* an integer literal as a float *)
  of_float : spec_float -> F;   (* a decoded binary32 as a float *)
  fadd : F -> F -> F;
  fmul : F -> F -> F;
  fneg : F -> F;
  fcos : F -> F;                (* np.cos, math.cos *)
  fsin : F -> F;                (* np.sin, math.sin *)
  radians : F -> F;             (* np.radians, math.radians *)
  degrees : F -> F              (* np.degrees *)
}.

Section Geometry.

Context {F : Type} {SF : Scalar F}.

Record vec3 : Type := V3 { vx : F; vy : F; vz : F }.
Record mat3 : Type := M3 { row0 : vec3; row1 : vec3; row2 : vec3 }.

Definition dot (u v : vec3) : F :=
  fadd (fadd (fmul (vx u) (vx v)) (fmul (vy u) (vy v)))
       (fmul (vz u) (vz v)).

Definition col0 (m : mat3) : vec3 :=
  V3 (vx (row0 m)) (vx (row1 m)) (vx (row2 m)).
Definition col1 (m : mat3) : vec3 :=
  V3 (vy (row0 m)) (vy (row1 m)) (vy (row2 m)).
Definition col2 (m : mat3) : vec3 :=
  V3 (vz (row0 m)) (vz (row1 m)) (vz (row2 m)).

(** [A @ v] *)
Definition matvec (a : mat3) (v : vec3) : vec3 :=
  V3 (dot (row0 a) v) (dot (row1 a) v) (dot (row2 a) v).

(** [A @ B] *)
Definition matmul (a b : mat3) : mat3 :=
  let row r := V3 (dot r (col0 b)) (dot r (col1 b)) (dot r (col2 b)) in
  M3 (row (row0 a)) (row (row1 a)) (row (row2 a)).

Definition vadd (u v : vec3) : vec3 :=
  V3 (fadd (vx u) (vx v)) (fadd (vy u) (vy v)) (fadd (vz u) (vz v)).

Definition zero3 : vec3 := V3 (of_int 0) (of_int 0) (of_int 0).

Definition eye3 : mat3 :=
  M3 (V3 (of_int 1) (of_int 0) (of_int 0))
     (V3 (of_int 0) (of_int 1) (of_int 0))
     (V3 (of_int 0) (of_int 0) (of_int 1)).

(** Lines 113-117. *)
Definition Rx (tilt : F) : mat3 :=
  M3 (V3 (of_int 1) (of_int 0) (of_int 0))
     (V3 (of_int 0) (fcos tilt) (fneg (fsin tilt)))
     (V3 (of_int 0) (fsin tilt) (fcos tilt)).

(** Lines 118-122. *)
Definition Ry (pan : F) : mat3 :=
  M3 (V3 (fcos pan) (of_int 0) (fsin pan))
     (V3 (of_int 0) (of_int 1) (of_int 0))
     (V3 (fneg (fsin pan)) (of_int 0) (fcos pan)).

(** ** pyqtgraph items

    A [GLMeshItem] carries a [Transform3D], an affine map kept here as its
    linear part and its translation.  [A * B] applies [B] first. *)
Record transform : Type := Transform { lin : mat3; off : vec3 }.

Definition t_identity : transform := Transform eye3 zero3.

Definition t_mul (a b : transform) : transform :=
  Transform (matmul (lin a) (lin b))
            (vadd (matvec (lin a) (off b)) (off a)).

Inductive axis : Type := axis_x | axis_y.

(** [Transform3D().rotate(angle, x, y, z)] for the unit axes (1, 0, 0) and
    (0, 1, 0), [angle] in degrees. *)
Definition t_rotation (angle : F) (ax : axis) : transform :=
  match ax with
  | axis_x => Transform (Rx (radians angle)) zero3
  | axis_y => Transform (Ry (radians angle)) zero3
  end.

(** [Transform3D().translate(dx, dy, dz)] *)
Definition t_translation (d : vec3) : transform := Transform eye3 d.

(** [item.resetTransform()], [item.rotate(angle, x, y, z)] and
    [item.translate(dx, dy, dz)], with [local=False]: the new transform is
    multiplied on the left of the item's current one. *)
Definition resetTransform (item : transform) : transform := t_identity.

Definition rotate (angle : F) (ax : axis) (item : transform) : transform :=
  t_mul (t_rotation angle ax) item.

Definition translate (d : vec3) (item : transform) : transform :=
  t_mul (t_translation d) item.

(** ** The scene of [visualize_head] *)
Record scene : Type := Scene {
  head : transform;
  neck : transform;
  left_eye : transform;
  right_eye : transform
}.

(** Lines 66-79. *)
Definition theta : F := radians (of_int 30).
Definition phi_left : F := radians (of_int 150).
Definition phi_right : F := radians (of_int 30).
Definition r_val : F := of_int 1.

Definition left_eye_offset : vec3 :=
  V3 (fmul (fmul r_val (fsin theta)) (fcos phi_left))
     (fmul (fmul r_val (fsin theta)) (fsin phi_left))
     (fmul r_val (fcos theta)).

Definition right_eye_offset : vec3 :=
  V3 (fmul (fmul r_val (fsin theta)) (fcos phi_right))
     (fmul (fmul r_val (fsin theta)) (fsin phi_right))
     (fmul r_val (fcos theta)).

(** Line 135. *)
Definition head_pos : vec3 := zero3.

(** Lines 46-95: the items as the set-up leaves them; the neck is moved
    down by 1.5 once and never touched again. *)
Definition initial_scene : scene :=
  Scene t_identity
        (translate (V3 (of_int 0) (of_int 0)
                       (of_float (S754_finite true 3 (-1))))
                   (resetTransform t_identity))
        t_identity t_identity.

(** Line 123. *)
Definition rotation_matrix (pan tilt : F) : mat3 :=
  matmul (Ry pan) (Rx tilt).

(** Lines 136-140, for one eye. *)
Definition place_eye (R : mat3) (local_pos : vec3) (eye_obj : transform)
    : transform :=
  let eye_obj := resetTransform eye_obj in
  let rotated := vadd (matvec R local_pos) head_pos in
  translate rotated eye_obj.

(** Lines 108-140: what a decoded sample does to the scene. *)
Definition render_frame (pan_angle tilt_angle : F) (sc : scene) : scene :=
  let pan := radians pan_angle in
  let tilt := radians tilt_angle in
  let R := rotation_matrix pan tilt in
  let head0 := resetTransform (head sc) in
  let left0 := resetTransform (left_eye sc) in
  let right0 := resetTransform (right_eye sc) in
  let head1 := rotate (degrees tilt) axis_x head0 in
  let head2 := rotate (degrees pan) axis_y head1 in
  Scene head2 (neck sc)
        (place_eye R left_eye_offset left0)
        (place_eye R right_eye_offset right0).

Variable bo : byteorder.

(** Lines 105-110, the part of the [try] that can raise; nothing has been
    changed or printed when it does. *)
Definition receive_sample (ev : net_event)
    : result (spec_float * spec_float) :=
  data <- recvfrom 1024 ev ;; unpack_angles bo data.

(** Lines 103-145: one timer tick.  The last component is the exception
    that leaves [update], if any. *)
Definition update (sc : scene) (ev : net_event)
    : scene * list entry * option exn :=
  match receive_sample ev with
  | Ok (pan_angle, tilt_angle) =>
      (render_frame (of_float pan_angle) (of_float tilt_angle) sc,
       [log_update pan_angle tilt_angle], None)
  | Raise BlockingIOError => (sc, [], None)
  | Raise e =>
      if is_Exception e then (sc, [log_error e], None)
      else (sc, [], Some e)
  end.

(** The timer of lines 157-159: [update] once per tick, for as long as no
    exception leaves it. *)
Fixpoint run_ticks (sc : scene) (evs : list net_event)
    : scene * list entry * loop_status :=
  match evs with
  | [] => (sc, [], Listening)
  | ev :: rest =>
      let '(sc1, out1, raised) := update sc ev in
      match raised with
      | Some e => (sc1, out1, Propagated e)
      | None =>
          let '(sc2, out2, st) := run_ticks sc1 rest in
          (sc2, out1 ++ out2, st)
      end
  end.

(** Lines 32-161: the set-up followed by the timer.  The socket of lines
    98-100 is non-blocking, and no statement of the function closes it. *)
Definition visualize_head (port : Z) (evs : list net_event)
    : scene * list entry * loop_status * socket :=
  let sock := socket_bind port in
  (run_ticks initial_scene evs, sock).

(** The composition in the other order, for comparison. *)
Definition swapped_rotation_matrix (pan tilt : F) : mat3 :=
  matmul (Rx tilt) (Ry pan).

End Geometry.

Arguments vec3 F : clear implicits.
Arguments mat3 F : clear implicits.
Arguments transform F : clear implicits.
Arguments scene F : clear implicits.

(* ================================================================== *)
(** * Exact arithmetic *)
(* ================================================================== *)

(** The real number a finite float denotes.  Infinities and NaN denote no
    real number; they are sent to 0 and play no part in the results below. *)
Definition sf_to_R (f : spec_float) : R :=
  match f with
  | S754_finite s m e =>
      ((if s then -1 else 1) * IZR (Zpos m) * powerRZ 2 e)%R
  | _ => 0%R
  end.

#[export] Instance exact : Scalar R := {
  of_int := IZR;
  of_float := sf_to_R;
  fadd := Rplus;
  fmul := Rmult;
  fneg := Ropp;
  fcos := cos;
  fsin := sin;
  radians := fun x => (x * (PI / 180))%R;
  degrees := fun x => (x * (180 / PI))%R
}.

(** The unit vectors of the world frame. *)
Definition unit_x : vec3 R := V3 1%R 0%R 0%R.
Definition unit_z : vec3 R := V3 0%R 0%R 1%R.

(* ================================================================== *)
(** * Further notions for the properties of the loops *)
(* ================================================================== *)

(** The byte that carries the boolean of an attention datagram, read as
    ['?'] reads it: any non-zero byte is [True]. *)
Definition flag_byte (data : list byte) : bool :=
  negb (Byte.eqb (hd x00 data) x00).

(** Two events that the attention loop cannot tell apart: the same
    exception, or two datagrams of 16 bytes with the same boolean. *)
Definition same_flag (ev ev' : net_event) : Prop :=
  match ev, ev' with
  | Datagram d, Datagram d' =>
      List.length d = 16 /\ List.length d' = 16
      /\ flag_byte d = flag_byte d'
  | RecvRaises e, RecvRaises e' => e = e'
  | _, _ => False
  end.

(** No line of [l] repeats the one before it, [prev] being the line before
    the first. *)
Fixpoint no_repeat (prev : option string) (l : list string) : Prop :=
  match l with
  | [] => True
  | x :: rest => prev <> Some x /\ no_repeat (Some x) rest
  end.


(** The commands that an event asks for: the two of its sample if it is a
    datagram that decodes, none otherwise. *)
Definition commands_of_event (bo : byteorder) (ev : net_event)
    : list command :=
  match receive_sample bo ev with
  | Ok (pan_angle, tilt_angle) =>
      [Command "head_0" pan_angle; Command "head_1" tilt_angle]
  | Raise _ => []
  end.

(** The last sample that decodes among the events, [acc] if there is
    none. *)
Fixpoint last_sample (bo : byteorder)
    (acc : option (spec_float * spec_float)) (evs : list net_event)
    : option (spec_float * spec_float) :=
  match evs with
  | [] => acc
  | ev :: rest =>
      match receive_sample bo ev with
      | Ok s => last_sample bo (Some s) rest
      | Raise _ => last_sample bo acc rest
      end
  end.

Section Viewer.

Context {F : Type} {SF : Scalar F}.

(** The scene that shows sample [s] over the set-up [sc0]. *)
Definition scene_of (s : option (spec_float * spec_float)) (sc0 : scene F)
    : scene F :=
  match s with
  | Some (pan_angle, tilt_angle) =>
      render_frame (of_float pan_angle) (of_float tilt_angle) sc0
  | None => sc0
  end.





Variable bo : byteorder.


End Viewer.

(** Unfolding of the geometry down to the operations on real numbers, and
    equality of vectors, matrices and transforms coordinate by coordinate. *)
Ltac unfold_geometry :=
  unfold render_frame, place_eye, rotate, translate, resetTransform,
    t_mul, t_rotation, t_translation, t_identity, rotation_matrix,
    swapped_rotation_matrix, head_pos, matmul, matvec, vadd, dot,
    col0, col1, col2, Rx, Ry, eye3, zero3, unit_x, unit_z;
  cbn [head neck left_eye right_eye lin off row0 row1 row2 vx vy vz
       of_int of_float fadd fmul fneg fcos fsin radians degrees exact].

Ltac by_ring :=
  repeat match goal with
         | |- @eq (transform _) _ _ => f_equal
         | |- @eq (mat3 _) _ _ => f_equal
         | |- @eq (vec3 _) _ _ => f_equal
         end;
  ring.

(* ================================================================== *)
(** * Results: the wire decoder *)
(* ================================================================== *)

Unset Implicit Arguments.

Lemma recvfrom_length_8 (data : list byte) :
  List.length (firstn 1024 data) = 8 <-> List.length data = 8.
Proof. rewrite length_firstn. lia. Qed.

Lemma unpack_ff_ok (bo : byteorder) (data : list byte) :
  List.length data = 8 ->
  struct.unpack bo "ff" data
  = Ok [PyFloat (struct.float_of_bits
                   (struct.bytes_to_Z bo (struct.slice 0 4 data)));
        PyFloat (struct.float_of_bits
                   (struct.bytes_to_Z bo (struct.slice 4 4 data)))].
Proof.
  intros Hlen. unfold struct.unpack. simpl struct.parse.
  unfold struct.unpack_codes. rewrite Hlen. reflexivity.
Qed.

Lemma unpack_ff_bad (bo : byteorder) (data : list byte) :
  List.length data <> 8 -> struct.unpack bo "ff" data = Raise struct_error.
Proof.
  intros Hlen. unfold struct.unpack. simpl struct.parse.
  unfold struct.unpack_codes.
  change (struct.calcsize_codes [struct.c_float; struct.c_float]) with 8.
  apply Nat.eqb_neq in Hlen. rewrite Hlen. reflexivity.
Qed.

Lemma unpack_angles_ok (bo : byteorder) (data : list byte) :
  List.length data = 8 ->
  unpack_angles bo data
  = Ok (struct.float_of_bits (struct.bytes_to_Z bo (struct.slice 0 4 data)),
        struct.float_of_bits (struct.bytes_to_Z bo (struct.slice 4 4 data))).
Proof.
  intros Hlen. unfold unpack_angles. rewrite (unpack_ff_ok bo data Hlen).
  reflexivity.
Qed.

Lemma unpack_angles_bad (bo : byteorder) (data : list byte) :
  List.length data <> 8 -> unpack_angles bo data = Raise struct_error.
Proof.
  intros Hlen. unfold unpack_angles. rewrite (unpack_ff_bad bo data Hlen).
  reflexivity.
Qed.

Lemma receive_sample_bad (bo : byteorder) (data : list byte) :
  List.length data <> 8 ->
  receive_sample bo (Datagram data) = Raise struct_error.
Proof.
  intros Hlen. unfold receive_sample. simpl.
  apply unpack_angles_bad. intros H. apply Hlen.
  apply recvfrom_length_8. exact H.
Qed.

Lemma sf_to_R_12_5 :
  sf_to_R (S754_finite false 13107200 (-20)) = 12.5%R.
Proof. unfold sf_to_R, powerRZ. simpl. lra. Qed.

Lemma sf_to_R_minus_7_25 :
  sf_to_R (S754_finite true 15204352 (-21)) = (-7.25)%R.
Proof. unfold sf_to_R, powerRZ. simpl. lra. Qed.

(** C2.  A buffer of exactly 8 bytes decodes to the sample whose pan is the
    binary32 in bytes 0-3 and whose tilt is the binary32 in bytes 4-7; the
    native encoding of (12.5, -7.25) decodes to these two numbers; the
    decoder raises [struct.error] exactly when the buffer is not 8 bytes
    long; and a render tick that meets such a datagram leaves every
    transform of the scene as it was, whatever the arithmetic. *)
Theorem wire_decoder_angles :
  (forall bo data,
      List.length data = 8 ->
      unpack_angles bo data
      = Ok (struct.float_of_bits
              (struct.bytes_to_Z bo (struct.slice 0 4 data)),
            struct.float_of_bits
              (struct.bytes_to_Z bo (struct.slice 4 4 data))))
  /\ (forall bo data,
      List.length data <> 8 <-> unpack_angles bo data = Raise struct_error)
  /\ (forall bo data,
      List.length data <> 8 <-> is_ok (unpack_angles bo data) = false)
  /\ (exists pan tilt,
      unpack_angles little [x00; x00; x48; x41; x00; x00; xe8; xc0]
      = Ok (pan, tilt)
      /\ unpack_angles big [x41; x48; x00; x00; xc0; xe8; x00; x00]
         = Ok (pan, tilt)
      /\ sf_to_R pan = 12.5%R /\ sf_to_R tilt = (-7.25)%R)
  /\ (forall bo (F : Type) (SF : Scalar F) (sc : scene F) data,
      List.length data <> 8 ->
      update bo sc (Datagram data) = (sc, [log_error struct_error], None)).
Proof.
  split; [exact unpack_angles_ok |].
  split.
  { intros bo data. split.
    - apply unpack_angles_bad.
    - intros Hraise Hlen.
      rewrite (unpack_angles_ok bo data Hlen) in Hraise. discriminate. }
  split.
  { intros bo data. split.
    - intros Hlen. rewrite (unpack_angles_bad bo data Hlen). reflexivity.
    - intros Hfail Hlen.
      rewrite (unpack_angles_ok bo data Hlen) in Hfail. discriminate. }
  split.
  { exists (S754_finite false 13107200 (-20)).
    exists (S754_finite true 15204352 (-21)).
    split; [vm_compute; reflexivity |].
    split; [vm_compute; reflexivity |].
    split; [exact sf_to_R_12_5 | exact sf_to_R_minus_7_25]. }
  intros bo F SF sc data Hlen. unfold update.
  rewrite (receive_sample_bad bo data Hlen). reflexivity.
Qed.

(** The theorem at a 7-byte and at a 9-byte buffer. *)
Lemma wire_decoder_angles_witness :
  unpack_angles little [x00; x00; x48; x41; x00; x00; xe8] = Raise struct_error
  /\ unpack_angles little [x00; x00; x48; x41; x00; x00; xe8; xc0; x00]
     = Raise struct_error
  /\ update little (@initial_scene R exact)
            (Datagram [x00; x00; x48; x41; x00; x00; xe8])
     = (initial_scene, [log_error struct_error], None).
Proof.
  destruct wire_decoder_angles as (_ & Hbad & _ & _ & Hkeep).
  split; [apply Hbad; simpl; lia |].
  split; [apply Hbad; simpl; lia |].
  apply Hkeep. simpl. lia.
Defined.

(* ================================================================== *)
(** * Results: the attention-stream decoder *)
(* ================================================================== *)

Lemma unpack_bq_ok (bo : byteorder) (data : list byte) :
  List.length data = 16 ->
  unpack_status bo data
  = Ok (negb (struct.le_to_Z (struct.slice 0 1 data) =? 0)%Z,
        struct.signed64 (struct.bytes_to_Z bo (struct.slice 8 8 data))).
Proof.
  intros Hlen. unfold unpack_status, struct.unpack. simpl struct.parse.
  unfold struct.unpack_codes. rewrite Hlen. reflexivity.
Qed.

Lemma unpack_bq_bad (bo : byteorder) (data : list byte) :
  List.length data <> 16 -> unpack_status bo data = Raise struct_error.
Proof.
  intros Hlen. unfold unpack_status, struct.unpack. simpl struct.parse.
  unfold struct.unpack_codes.
  change (struct.calcsize_codes [struct.c_bool; struct.c_longlong]) with 16.
  apply Nat.eqb_neq in Hlen. rewrite Hlen. reflexivity.
Qed.

(** C10.  With native alignment the format ['?q'] is 16 bytes long: the
    boolean is at offset 0, the 64-bit integer at offset 8, with the 7 bytes
    in between unused.  The decoder accepts exactly the buffers of 16 bytes;
    every other length, the 9 bytes of the two fields packed side by side
    included, raises [struct.error]. *)
Theorem attention_decoder_size :
  struct.calcsize "?q" = Ok 16
  /\ struct.layout 0 [struct.c_bool; struct.c_longlong]
     = ([(0, struct.c_bool); (8, struct.c_longlong)], 16)
  /\ (forall bo data,
      List.length data <> 16 <-> unpack_status bo data = Raise struct_error)
  /\ (forall bo data,
      List.length data = 16 ->
      unpack_status bo data
      = Ok (negb (struct.le_to_Z (struct.slice 0 1 data) =? 0)%Z,
            struct.signed64
              (struct.bytes_to_Z bo (struct.slice 8 8 data))))
  /\ (forall bo,
      unpack_status bo [x01; x2a; x00; x00; x00; x00; x00; x00; x00]
      = Raise struct_error).
Proof.
  split; [reflexivity |].
  split; [reflexivity |].
  split.
  { intros bo data. split.
    - apply unpack_bq_bad.
    - intros Hraise Hlen.
      rewrite (unpack_bq_ok bo data Hlen) in Hraise. discriminate. }
  split; [exact unpack_bq_ok |].
  intros bo. apply unpack_bq_bad. simpl. lia.
Qed.

(** The theorem at a 16-byte datagram (looking, timestamp 42) and at the
    same two fields without padding. *)
Lemma attention_decoder_size_witness :
  unpack_status little
    [x01; x00; x00; x00; x00; x00; x00; x00;
     x2a; x00; x00; x00; x00; x00; x00; x00] = Ok (true, 42%Z)
  /\ unpack_status little [x01; x2a; x00; x00; x00; x00; x00; x00; x00]
     = Raise struct_error.
Proof.
  destruct attention_decoder_size as (_ & _ & Hbad & Hok & _).
  split.
  - rewrite Hok; [vm_compute; reflexivity | reflexivity].
  - apply Hbad. simpl. lia.
Defined.

(* ================================================================== *)
(** * Results: the attention latch *)
(* ================================================================== *)

Section LatchFacts.

Variable bo : byteorder.
Variable clock : nat -> string.

Lemma status_differs_spec (last : option bool) (looking : bool) :
  status_differs last looking = true
  <-> last = None \/ last = Some (negb looking).
Proof.
  destruct last as [[|]|], looking; simpl; split; intros H; auto;
    try discriminate;
    destruct H as [H | H]; discriminate.
Qed.

Lemma datagram_of_sample_decodes (looking : bool) :
  exists ts,
    (data <- recvfrom 1024 (datagram_of_sample looking) ;;
     unpack_status little data) = Ok (looking, ts).
Proof.
  destruct looking; eexists; vm_compute; reflexivity.
Qed.

(** On well-formed datagrams the loop prints one status per transition of
    the latch and keeps listening. *)
Lemma looking_loop_transitions (samples : list bool) :
  forall i last,
    let '(last', out, st) :=
      looking_loop little clock i last (map datagram_of_sample samples) in
    printed_statuses out
    = map (fun t => status_text (snd t)) (transitions last samples)
    /\ List.length out = List.length (transitions last samples)
    /\ st = Listening.
Proof.
  induction samples as [| s rest IH]; intros i last.
  - simpl. auto.
  - cbn [map looking_loop transitions].
    destruct (datagram_of_sample_decodes s) as [ts Hts]. rewrite Hts.
    unfold latch. destruct (status_differs last s).
    + specialize (IH (S i) (Some s)).
      destruct (looking_loop little clock (S i) (Some s)
                  (map datagram_of_sample rest)) as [[last2 out2] st].
      destruct IH as (H1 & H2 & H3).
      cbn. rewrite H1, H2, H3. auto.
    + specialize (IH (S i) last).
      destruct (looking_loop little clock (S i) last
                  (map datagram_of_sample rest)) as [[last2 out2] st].
      exact IH.
Qed.

End LatchFacts.

(** C5.  The latch prints a status line if and only if nothing was latched
    yet or the incoming boolean differs from the latched one; it assigns the
    latched value exactly then, and the latched value is afterwards the
    incoming one; a repeated value prints nothing.  On the samples
    [true, true, false, false, true] there are exactly three transitions,
    unobserved to true, true to false, false to true, and the receive loop
    fed with the five datagrams prints exactly the three corresponding
    lines. *)
Theorem attention_latch_transitions :
  (forall clock i last looking,
      (snd (latch clock i last looking) <> []
       <-> last = None \/ last = Some (negb looking))
      /\ (snd (latch clock i last looking) <> []
          <-> fst (latch clock i last looking) <> last)
      /\ (snd (latch clock i last looking) <> [] ->
          snd (latch clock i last looking)
          = [log_status (clock i) (status_text looking)])
      /\ fst (latch clock i last looking) = Some looking)
  /\ (forall clock i b, latch clock i (Some b) b = (Some b, []))
  /\ transitions None [true; true; false; false; true]
     = [(None, true); (Some true, false); (Some false, true)]
  /\ (forall clock,
      looking_loop little clock 0 None
        (map datagram_of_sample [true; true; false; false; true])
      = (Some true,
         [log_status (clock 0) "LOOKING AT CAMERA";
          log_status (clock 2) "NOT LOOKING AT CAMERA";
          log_status (clock 4) "LOOKING AT CAMERA"],
         Listening))
  /\ (forall clock i last samples,
      printed_statuses
        (snd (fst (looking_loop little clock i last
                     (map datagram_of_sample samples))))
      = map (fun t => status_text (snd t)) (transitions last samples)).
Proof.
  split.
  { intros clock i last looking. unfold latch.
    pose proof (status_differs_spec last looking) as Hd.
    destruct (status_differs last looking) eqn:E; cbn [fst snd].
    - assert (Hl : last = None \/ last = Some (negb looking))
        by (apply Hd; reflexivity).
      repeat split; auto; try discriminate.
      intros _ Heq. destruct Hl as [Hl | Hl]; rewrite Hl in Heq;
        [discriminate | injection Heq; destruct looking; discriminate].
    - repeat split; try (intros H; exfalso; apply H; reflexivity).
      + intros H. apply Hd in H. discriminate.
      + destruct last as [b |]; [| discriminate].
        simpl in E. apply negb_false_iff, Bool.eqb_prop in E.
        rewrite E. reflexivity. }
  split.
  { intros clock i b. unfold latch. simpl. rewrite Bool.eqb_reflx.
    reflexivity. }
  split; [reflexivity |].
  split; [intros clock; vm_compute; reflexivity |].
  intros clock i last samples.
  pose proof (looking_loop_transitions clock samples i last) as H.
  destruct (looking_loop little clock i last
              (map datagram_of_sample samples)) as [[last2 out2] st].
  exact (proj1 H).
Qed.

(** The theorem at an unobserved latch that receives [true]. *)
Lemma attention_latch_transitions_witness :
  snd (latch (fun _ => "12:00:00.000") 0 None true)
  = [log_status "12:00:00.000" "LOOKING AT CAMERA"].
Proof.
  destruct attention_latch_transitions as (Hlatch & _).
  destruct (Hlatch (fun _ => "12:00:00.000") 0 None true)
    as (_ & _ & Hout & _).
  apply Hout. simpl. discriminate.
Defined.

(* ================================================================== *)
(** * Results: the actuator loop *)
(* ================================================================== *)

Section ActuatorFacts.

Variable bo : byteorder.
Variable Robot : Type.
Variable set_joint_position :
  Robot -> string -> spec_float -> Robot * result unit.

(** A datagram that does not decode: nothing is sent to the robot, the
    error is printed, the iteration ends normally. *)
Lemma control_iteration_bad (robot : Robot) (data : list byte) :
  List.length data <> 8 ->
  control_iteration bo set_joint_position robot (Datagram data)
  = (robot, [log_error struct_error], [], None).
Proof.
  intros Hlen. unfold control_iteration, control_body.
  pose proof (receive_sample_bad bo data Hlen) as Hbad.
  unfold receive_sample in Hbad. rewrite Hbad. reflexivity.
Qed.

(** An iteration only lets [KeyboardInterrupt] through. *)
Lemma control_iteration_raises (robot : Robot) (ev : net_event) (e : exn) :
  snd (control_iteration bo set_joint_position robot ev) = Some e -> e = KeyboardInterrupt.
Proof.
  unfold control_iteration.
  destruct (control_body bo set_joint_position robot ev)
    as [[[robot1 out] cmds] [u | e']]; simpl; [discriminate |].
  destruct e'; simpl; intros H; try discriminate.
  injection H as <-. reflexivity.
Qed.

Lemma control_loop_cons (robot : Robot) (ev : net_event)
    (rest : list net_event) :
  snd (control_iteration bo set_joint_position robot ev) = None ->
  let '(robot1, out1, cmds1, _) := control_iteration bo set_joint_position robot ev in
  let '(robot2, out2, cmds2, st) := control_loop bo set_joint_position robot1 rest in
  control_loop bo set_joint_position robot (ev :: rest) = (robot2, out1 ++ out2, cmds1 ++ cmds2, st).
Proof.
  cbn [control_loop].
  destruct (control_iteration bo set_joint_position robot ev)
    as [[[robot1 out1] cmds1] raised].
  simpl. intros ->.
  destruct (control_loop bo set_joint_position robot1 rest)
    as [[[robot2 out2] cmds2] st].
  reflexivity.
Qed.

(** What can leave the body of the [try]. *)
Lemma control_body_raises (robot : Robot) (ev : net_event) (e : exn) :
  snd (control_body bo set_joint_position robot ev) = Raise e ->
  ev = RecvRaises e
  \/ is_Exception e = true
  \/ exists r j a, snd (set_joint_position r j a) = Raise e.
Proof.
  unfold control_body. destruct ev as [data | e0]; cbn [recvfrom bind].
  - destruct (unpack_angles bo (firstn 1024 data)) as [[pan tilt] | e1] eqn:Eu.
    + destruct (set_joint_position robot "head_0" pan)
        as [robot1 [u | e1]] eqn:E1.
      * destruct (set_joint_position robot1 "head_1" tilt)
          as [robot2 r2] eqn:E2.
        cbn [snd]. intros ->. right. right.
        exists robot1, "head_1", tilt. rewrite E2. reflexivity.
      * cbn [snd]. intros [= ->]. right. right.
        exists robot, "head_0", pan. rewrite E1. reflexivity.
    + cbn [snd]. intros [= ->]. right. left.
      unfold unpack_angles in Eu.
      destruct (struct.unpack bo "ff" (firstn 1024 data)) as [vs | e2] eqn:Ev;
        cbn [bind] in Eu.
      * unfold two_floats in Eu.
        destruct vs as [| [] [| [] [| ]]]; inversion Eu; reflexivity.
      * injection Eu as ->. unfold struct.unpack in Ev.
        simpl struct.parse in Ev. unfold struct.unpack_codes in Ev.
        destruct (Nat.eqb _ _) in Ev; inversion Ev; reflexivity.
  - cbn [snd]. intros [= ->]. left. reflexivity.
Qed.

(** An iteration that meets no interrupt ends normally. *)
Lemma control_iteration_continues (robot : Robot) (ev : net_event) :
  ev <> RecvRaises KeyboardInterrupt ->
  commands_fail_softly set_joint_position ->
  snd (control_iteration bo set_joint_position robot ev) = None.
Proof.
  intros Hev Hsoft.
  destruct (snd (control_iteration bo set_joint_position robot ev)) as [e |] eqn:Hit; [| reflexivity].
  exfalso.
  pose proof (control_iteration_raises robot ev e Hit) as ->.
  unfold control_iteration in Hit.
  pose proof (control_body_raises robot ev) as Hbody.
  destruct (control_body bo set_joint_position robot ev)
    as [[[robot1 out] cmds] [u | e']]; cbn [snd] in *; [discriminate |].
  destruct (Hbody e' eq_refl) as [H | [H | (r & j & a & H)]].
  - subst ev. destruct e'; try discriminate. apply Hev. reflexivity.
  - rewrite H in Hit. discriminate.
  - rewrite (Hsoft r j a e' H) in Hit. discriminate.
Qed.

(** With no interrupt among the events the loop is still listening. *)
Lemma control_loop_listening (evs : list net_event) :
  forall robot,
    Forall (fun ev => ev <> RecvRaises KeyboardInterrupt) evs ->
    commands_fail_softly set_joint_position ->
    snd (control_loop bo set_joint_position robot evs) = Listening.
Proof.
  induction evs as [| ev rest IH]; intros robot Hevs Hsoft.
  - reflexivity.
  - inversion Hevs as [| ? ? Hev Hrest]; subst.
    pose proof (control_iteration_continues robot ev Hev Hsoft) as Hnone.
    pose proof (control_loop_cons robot ev rest Hnone) as Hcons.
    destruct (control_iteration bo set_joint_position robot ev) as [[[robot1 out1] cmds1] raised].
    specialize (IH robot1 Hrest Hsoft).
    destruct (control_loop bo set_joint_position robot1 rest) as [[[robot2 out2] cmds2] st].
    rewrite Hcons. exact IH.
Qed.

End ActuatorFacts.

(** C6 as stated fails: when the pan command is rejected, the tilt command
    of that sample is never issued.  With a robot whose pan joint rejects
    every command, the datagram of (45.0, -20.0) yields the single call on
    "head_0". *)
Lemma actuator_two_commands_counterexample :
  ~ (forall (Robot : Type)
            (set_joint_position :
               Robot -> string -> spec_float -> Robot * result unit)
            (robot : Robot) (data : list byte) (pan tilt : spec_float),
        receive_sample little (Datagram data) = Ok (pan, tilt) ->
        snd (fst (control_iteration little set_joint_position robot
                    (Datagram data)))
        = [Command "head_0" pan; Command "head_1" tilt]).
Proof.
  intros H.
  specialize (H unit stuck_pan_robot tt datagram_45_m20 float_45 float_m20
                eq_refl).
  vm_compute in H. discriminate.
Qed.

(** C6, amended.  For a decoded sample the loop prints it and calls the
    robot for "head_0" with the pan angle.  If that call returns, it calls
    the robot for "head_1" with the tilt angle: two commands, pan then
    tilt.  If the pan call raises, the tilt command of this sample is not
    issued.  A call that raises an [Exception] is caught and printed, the
    iteration ends normally, and the loop goes on listening.  The datagram
    of (45.0, -20.0) sent to an obedient robot gives one command with 45.0
    and one with -20.0. *)
Theorem actuator_commands
    (bo : byteorder) (Robot : Type)
    (set_joint_position :
       Robot -> string -> spec_float -> Robot * result unit)
    (robot : Robot) (data : list byte) (pan tilt : spec_float) :
  receive_sample bo (Datagram data) = Ok (pan, tilt) ->
  let it := control_iteration bo set_joint_position robot (Datagram data) in
  let robot' := fst (fst (fst it)) in
  let out := snd (fst (fst it)) in
  let cmds := snd (fst it) in
  let raised := snd it in
  (forall robot1 u,
      set_joint_position robot "head_0" pan = (robot1, Ok u) ->
      cmds = [Command "head_0" pan; Command "head_1" tilt]
      /\ robot' = fst (set_joint_position robot1 "head_1" tilt)
      /\ (forall u2,
             snd (set_joint_position robot1 "head_1" tilt) = Ok u2 ->
             out = [log_recv pan tilt] /\ raised = None)
      /\ (forall e,
             snd (set_joint_position robot1 "head_1" tilt) = Raise e ->
             is_Exception e = true ->
             out = [log_recv pan tilt; log_error e] /\ raised = None))
  /\ (forall robot1 e,
      set_joint_position robot "head_0" pan = (robot1, Raise e) ->
      cmds = [Command "head_0" pan]
      /\ robot' = robot1
      /\ (is_Exception e = true ->
          out = [log_recv pan tilt; log_error e] /\ raised = None))
  /\ (commands_fail_softly set_joint_position ->
      forall rest,
        Forall (fun ev => ev <> RecvRaises KeyboardInterrupt) rest ->
        snd (control_loop bo set_joint_position robot (Datagram data :: rest))
        = Listening)
  /\ cr_commands (control_robot little obedient_robot tt 65432
                    [Datagram datagram_45_m20])
     = [Command "head_0" float_45; Command "head_1" float_m20]
  /\ sf_to_R float_45 = 45%R /\ sf_to_R float_m20 = (-20)%R.
Proof.
  intros Hrecv. unfold receive_sample in Hrecv.
  unfold control_iteration, control_body. rewrite Hrecv.
  split.
  { intros robot1 u E1. rewrite E1.
    destruct (set_joint_position robot1 "head_1" tilt) as [robot2 r2].
    cbn [fst snd]. split; [| split; [| split]].
    - destruct r2 as [u2 | e2]; [| destruct (is_Exception e2)]; reflexivity.
    - destruct r2 as [u2 | e2]; [| destruct (is_Exception e2)]; reflexivity.
    - intros u2 ->. split; reflexivity.
    - intros e -> ->. split; reflexivity. }
  split.
  { intros robot1 e E1. rewrite E1. cbn [fst snd].
    split; [| split].
    - destruct (is_Exception e); reflexivity.
    - destruct (is_Exception e); reflexivity.
    - intros ->. split; reflexivity. }
  split.
  { intros Hsoft rest Hrest.
    apply control_loop_listening; [| exact Hsoft].
    constructor; [discriminate | exact Hrest]. }
  split; [vm_compute; reflexivity |].
  unfold sf_to_R, float_45, float_m20, powerRZ. simpl. split; lra.
Qed.

(** The theorem at the datagram of (45.0, -20.0) and the robot whose pan
    joint rejects every command. *)
Lemma actuator_commands_witness :
  snd (fst (control_iteration little stuck_pan_robot tt
              (Datagram datagram_45_m20)))
  = [Command "head_0" float_45]
  /\ snd (control_iteration little stuck_pan_robot tt
            (Datagram datagram_45_m20)) = None.
Proof.
  destruct (actuator_commands little unit stuck_pan_robot tt
              datagram_45_m20 float_45 float_m20 eq_refl)
    as (_ & Hpan & _).
  destruct (Hpan tt RuntimeError eq_refl) as (Hcmds & _ & Hout).
  split; [exact Hcmds | exact (proj2 (Hout eq_refl))].
Defined.

(* ================================================================== *)
(** * Results: the receive loops and malformed datagrams *)
(* ================================================================== *)

Section LoopFacts.

Variable bo : byteorder.
Variable clock : nat -> string.

(** The attention loop on a run of events followed by more events, when the
    first run leaves it listening. *)
Lemma looking_loop_app (pre : list net_event) :
  forall i last post last1 out1,
    looking_loop bo clock i last pre = (last1, out1, Listening) ->
    looking_loop bo clock i last (pre ++ post)
    = let '(last2, out2, st) :=
        looking_loop bo clock (i + List.length pre) last1 post in
      (last2, out1 ++ out2, st).
Proof.
  induction pre as [| ev pre IH]; intros i last post last1 out1 Hpre.
  - cbn in Hpre. injection Hpre as <- <-. cbn [app List.length].
    rewrite Nat.add_0_r.
    destruct (looking_loop bo clock i last post) as [[last2 out2] st].
    reflexivity.
  - cbn [app looking_loop] in *.
    destruct (data <- recvfrom 1024 ev ;; unpack_status bo data)
      as [[looking ts] | e]; [| discriminate].
    destruct (latch clock i last looking) as [l1 o1].
    destruct (looking_loop bo clock (S i) l1 pre) as [[l2 o2] st] eqn:E.
    injection Hpre as <- <- ->.
    rewrite (IH (S i) l1 post l2 o2 E).
    cbn [List.length]. rewrite Nat.add_succ_r. cbn [Nat.add].
    destruct (looking_loop bo clock (S (i + List.length pre)) l2 post)
      as [[l3 o3] st3].
    rewrite app_assoc. reflexivity.
Qed.

(** A datagram that is not 16 bytes long ends the attention loop. *)
Lemma looking_loop_bad (i : nat) (last : option bool) (data : list byte)
    (rest : list net_event) :
  List.length data <> 16 ->
  looking_loop bo clock i last (Datagram data :: rest)
  = (last, [], Propagated struct_error).
Proof.
  intros Hlen. cbn [looking_loop recvfrom bind].
  rewrite unpack_bq_bad; [reflexivity |].
  rewrite length_firstn. lia.
Qed.

(** An exception raised inside [recvfrom] ends the attention loop. *)
Lemma looking_loop_raise (i : nat) (last : option bool) (e : exn)
    (rest : list net_event) :
  looking_loop bo clock i last (RecvRaises e :: rest)
  = (last, [], Propagated e).
Proof. reflexivity. Qed.

(** The render loop drops a malformed datagram and goes on with the next
    tick. *)
Lemma run_ticks_bad {F : Type} {SF : Scalar F} (sc : scene F)
    (data : list byte) (rest : list net_event) :
  List.length data <> 8 ->
  run_ticks bo sc (Datagram data :: rest)
  = let '(sc2, out2, st) := run_ticks bo sc rest in
    (sc2, log_error struct_error :: out2, st).
Proof.
  intros Hlen. cbn [run_ticks]. unfold update.
  rewrite (receive_sample_bad bo data Hlen). cbn [is_Exception].
  destruct (run_ticks bo sc rest) as [[sc2 out2] st]. reflexivity.
Qed.

End LoopFacts.

(** C3 as stated fails for the attention stream: a datagram whose length is
    not that of the format raises [struct.error] out of the [while] loop of
    [receive_looking_status], which has no handler for it; the datagrams
    that follow are never read. *)
Lemma decode_error_recovery_counterexample :
  ~ (forall clock port evs,
        Forall (fun ev => exists data, ev = Datagram data) evs ->
        lr_status (receive_looking_status little clock port evs)
        = Listening).
Proof.
  intros H.
  specialize (H (fun _ => "12:00:00.000") 65433%Z
                [Datagram datagram_unpadded; datagram_of_sample true]).
  assert (Hev : Forall (fun ev => exists data, ev = Datagram data)
                  [Datagram datagram_unpadded; datagram_of_sample true]).
  { repeat constructor; eexists; reflexivity. }
  specialize (H Hev). vm_compute in H. discriminate.
Qed.

(** C3, amended.  In the two orientation loops a datagram that does not
    decode is dropped and the loop goes on: the actuator loop sends nothing
    to the robot, prints the error and handles the events that follow as if
    the datagram had not come; the render tick leaves the scene as it was,
    prints the error, and the next ticks run.  The attention loop has no
    such handler: there the decode error leaves the loop, the datagrams that
    follow are not read, and the function ends after closing its socket. *)
Theorem decode_error_recovery (bo : byteorder) (data : list byte)
    (rest : list net_event) :
  List.length data <> 8 ->
  (forall (Robot : Type)
          (set_joint_position :
             Robot -> string -> spec_float -> Robot * result unit)
          (robot : Robot),
      control_loop bo set_joint_position robot (Datagram data :: rest)
      = let '(robot2, out2, cmds2, st) :=
          control_loop bo set_joint_position robot rest in
        (robot2, log_error struct_error :: out2, cmds2, st))
  /\ (forall (F : Type) (SF : Scalar F) (sc : scene F),
      update bo sc (Datagram data) = (sc, [log_error struct_error], None)
      /\ run_ticks bo sc (Datagram data :: rest)
         = let '(sc2, out2, st) := run_ticks bo sc rest in
           (sc2, log_error struct_error :: out2, st))
  /\ (forall clock port (bad : list byte),
      List.length bad <> 16 ->
      receive_looking_status bo clock port (Datagram bad :: rest)
      = LookingRun None [log_listening port] (Propagated struct_error)
                   (Socket port true)).
Proof.
  intros Hlen. split; [| split].
  - intros Robot set_joint_position robot.
    pose proof (control_iteration_bad bo Robot set_joint_position robot data
                  Hlen) as Hbad.
    pose proof (control_loop_cons bo Robot set_joint_position robot
                  (Datagram data) rest) as Hcons.
    rewrite Hbad in Hcons. specialize (Hcons eq_refl).
    destruct (control_loop bo set_joint_position robot rest)
      as [[[robot2 out2] cmds2] st].
    exact Hcons.
  - intros F SF sc. split.
    + unfold update. rewrite (receive_sample_bad bo data Hlen). reflexivity.
    + apply run_ticks_bad. exact Hlen.
  - intros clock port bad Hbad. unfold receive_looking_status.
    rewrite (looking_loop_bad bo clock 0 None bad rest Hbad). reflexivity.
Qed.

(** The theorem at a 7-byte datagram followed by the datagram of
    (45.0, -20.0), for an obedient robot. *)
Lemma decode_error_recovery_witness :
  control_loop little obedient_robot tt
    [Datagram [x00; x00; x48; x41; x00; x00; xe8]; Datagram datagram_45_m20]
  = (tt,
     [log_error struct_error; log_recv float_45 float_m20],
     [Command "head_0" float_45; Command "head_1" float_m20],
     Listening).
Proof.
  assert (Hlen : List.length [x00; x00; x48; x41; x00; x00; xe8] <> 8)
    by (simpl; lia).
  destruct (decode_error_recovery little
              [x00; x00; x48; x41; x00; x00; xe8]
              [Datagram datagram_45_m20] Hlen) as (Hloop & _).
  rewrite (Hloop unit obedient_robot tt). vm_compute. reflexivity.
Defined.

(* ================================================================== *)
(** * Results: interrupts and the socket *)
(* ================================================================== *)

(** C9 as stated fails for the actuator loop: an interrupt during
    [recvfrom] is not an [Exception], so it leaves [control_robot] as an
    exception, and no statement of that function closes the socket. *)
Lemma socket_release_counterexample :
  ~ (forall evs,
        let run := control_robot little obedient_robot tt 65432 evs in
        cr_status run <> Listening ->
        cr_status run = Returned /\ sock_closed (cr_sock run) = true).
Proof.
  intros H.
  specialize (H [RecvRaises KeyboardInterrupt]).
  cbv zeta in H.
  destruct H as [H _]; [vm_compute; discriminate |].
  vm_compute in H. discriminate.
Qed.

(** C9, amended.  [receive_looking_status] closes its socket on every path
    out of its loop, and only then: an interrupt ends the function normally
    after printing that the receiver stopped, with the socket closed, and an
    exception raised by a malformed datagram leaves the function with the
    socket closed as well.  [control_robot] has no such release: an interrupt
    propagates out of it and its socket is never closed by the function. *)
Theorem socket_release (bo : byteorder) (clock : nat -> string) (port : Z) :
  (forall evs,
      let run := receive_looking_status bo clock port evs in
      (lr_status run <> Listening <-> sock_closed (lr_sock run) = true)
      /\ lr_status run <> Propagated KeyboardInterrupt)
  /\ (forall pre rest last out,
      looking_loop bo clock 0 None pre = (last, out, Listening) ->
      receive_looking_status bo clock port
        (pre ++ RecvRaises KeyboardInterrupt :: rest)
      = LookingRun last (log_listening port :: out ++ [log_stopped])
                   Returned (Socket port true))
  /\ (forall pre rest last out bad,
      looking_loop bo clock 0 None pre = (last, out, Listening) ->
      List.length bad <> 16 ->
      receive_looking_status bo clock port (pre ++ Datagram bad :: rest)
      = LookingRun last (log_listening port :: out)
                   (Propagated struct_error) (Socket port true))
  /\ (forall (Robot : Type)
             (set_joint_position :
                Robot -> string -> spec_float -> Robot * result unit)
             (robot : Robot) evs,
      sock_closed (cr_sock (control_robot bo set_joint_position robot port
                              evs)) = false)
  /\ (forall (Robot : Type)
             (set_joint_position :
                Robot -> string -> spec_float -> Robot * result unit)
             (robot : Robot) rest,
      cr_status (control_robot bo set_joint_position robot port
                   (RecvRaises KeyboardInterrupt :: rest))
      = Propagated KeyboardInterrupt).
Proof.
  split; [| split; [| split; [| split]]].
  - intros evs. cbv zeta. unfold receive_looking_status.
    destruct (looking_loop bo clock 0 None evs) as [[last out] st].
    destruct st as [| | e]; [| | destruct e]; cbn; repeat split;
      try discriminate; try reflexivity; intros H; try discriminate;
      exfalso; apply H; reflexivity.
  - intros pre rest last out Hpre. unfold receive_looking_status.
    rewrite (looking_loop_app bo clock pre 0 None _ last out Hpre).
    rewrite looking_loop_raise. rewrite app_nil_r. reflexivity.
  - intros pre rest last out bad Hpre Hbad. unfold receive_looking_status.
    rewrite (looking_loop_app bo clock pre 0 None _ last out Hpre).
    rewrite (looking_loop_bad bo clock _ last bad rest Hbad).
    rewrite app_nil_r. reflexivity.
  - intros Robot set_joint_position robot evs. unfold control_robot.
    destruct (control_loop bo set_joint_position robot evs)
      as [[[robot1 out] cmds] st].
    reflexivity.
  - intros Robot set_joint_position robot rest. reflexivity.
Qed.

(** The theorem at two well-formed datagrams followed by an interrupt. *)
Lemma socket_release_witness :
  receive_looking_status little (fun _ => "12:00:00.000") 65433
    ([datagram_of_sample true; datagram_of_sample false]
       ++ [RecvRaises KeyboardInterrupt])
  = LookingRun (Some false)
      [log_listening 65433;
       log_status "12:00:00.000" "LOOKING AT CAMERA";
       log_status "12:00:00.000" "NOT LOOKING AT CAMERA";
       log_stopped]
      Returned (Socket 65433 true).
Proof.
  destruct (socket_release little (fun _ => "12:00:00.000") 65433)
    as (_ & Hint & _).
  apply (Hint [datagram_of_sample true; datagram_of_sample false] []
              (Some false)
              [log_status "12:00:00.000" "LOOKING AT CAMERA";
               log_status "12:00:00.000" "NOT LOOKING AT CAMERA"]).
  vm_compute. reflexivity.
Defined.

(* ================================================================== *)
(** * Results: the render tick *)
(* ================================================================== *)

(** C7.  A tick on which the non-blocking socket has nothing to deliver
    raises [BlockingIOError] inside [update], which is passed over: nothing
    is printed, no exception leaves [update], every transform of the scene is
    what it was, and the timer goes on to the next tick. *)
Theorem idle_tick_is_noop :
  forall (bo : byteorder) (F : Type) (SF : Scalar F) (sc : scene F)
         (rest : list net_event),
    update bo sc (RecvRaises BlockingIOError) = (sc, [], None)
    /\ run_ticks bo sc (RecvRaises BlockingIOError :: rest)
       = run_ticks bo sc rest.
Proof.
  intros bo F SF sc rest. split; [reflexivity |].
  cbn [run_ticks]. unfold update. cbn.
  destruct (run_ticks bo sc rest) as [[sc2 out2] st]. reflexivity.
Qed.

Section FrameFacts.

Context {F : Type} {SF : Scalar F}.

(** A frame is computed from the sample and the fixed rest data alone: of
    the scene it starts from, only the neck, which it does not touch, shows
    in the result. *)
Lemma render_frame_fresh (pan_angle tilt_angle : F) (sc sc' : scene F) :
  head (render_frame pan_angle tilt_angle sc)
  = head (render_frame pan_angle tilt_angle sc')
  /\ left_eye (render_frame pan_angle tilt_angle sc)
     = left_eye (render_frame pan_angle tilt_angle sc')
  /\ right_eye (render_frame pan_angle tilt_angle sc)
     = right_eye (render_frame pan_angle tilt_angle sc')
  /\ neck (render_frame pan_angle tilt_angle sc) = neck sc.
Proof. repeat split. Qed.

Lemma render_frame_twice (pan_angle tilt_angle : F) (sc : scene F) :
  render_frame pan_angle tilt_angle (render_frame pan_angle tilt_angle sc)
  = render_frame pan_angle tilt_angle sc.
Proof. reflexivity. Qed.

End FrameFacts.

(** C8.  Processing the same datagram twice gives the same scene as
    processing it once, for every arithmetic on floats: the rotation matrix
    and the transforms of head and eyes are recomputed from the sample and
    the rest data after the transforms have been reset, so the second
    application reproduces the first, with equality of the values
    themselves. *)
Theorem update_idempotent :
  forall (bo : byteorder) (F : Type) (SF : Scalar F) (sc : scene F)
         (data : list byte),
    let sc1 := fst (fst (update bo sc (Datagram data))) in
    let sc2 := fst (fst (update bo sc1 (Datagram data))) in
    sc2 = sc1
    /\ snd (fst (update bo sc1 (Datagram data)))
       = snd (fst (update bo sc (Datagram data)))
    /\ (forall pan_angle tilt_angle : F,
        render_frame pan_angle tilt_angle
          (render_frame pan_angle tilt_angle sc)
        = render_frame pan_angle tilt_angle sc).
Proof.
  intros bo F SF sc data. cbv zeta. unfold update.
  destruct (receive_sample bo (Datagram data)) as [[pan tilt] | e] eqn:Hrecv.
  - cbn [fst snd]. repeat split; reflexivity.
  - destruct e; cbn [fst snd is_Exception]; repeat split; reflexivity.
Qed.

(* ================================================================== *)
(** * Results in exact arithmetic *)
(* ================================================================== *)

Section ExactFacts.

Local Open Scope R_scope.

Lemma radians_degrees (x : R) : radians (degrees x) = x.
Proof. cbn. field. exact PI_neq0. Qed.

Lemma radians_0 : radians (0 : R) = 0.
Proof. cbn. ring. Qed.

Lemma radians_90 : radians (90 : R) = PI / 2.
Proof. cbn. field. Qed.

(** [A @ B] applied to a vector applies [B] first. *)
Lemma matvec_matmul (a b : mat3 R) (v : vec3 R) :
  matvec (matmul a b) v = matvec a (matvec b v).
Proof.
  destruct a as [[a00 a01 a02] [a10 a11 a12] [a20 a21 a22]].
  destruct b as [[b00 b01 b02] [b10 b11 b12] [b20 b21 b22]].
  destruct v as [x y z].
  unfold_geometry. by_ring.
Qed.

(** The head after a frame: rotated by [R] about the origin. *)
Lemma head_after_frame (pan_angle tilt_angle : R) (sc : scene R) :
  head (render_frame pan_angle tilt_angle sc)
  = Transform (rotation_matrix (radians pan_angle) (radians tilt_angle))
              zero3.
Proof.
  unfold render_frame. cbn [head]. unfold rotate, resetTransform.
  unfold_geometry.
  replace (pan_angle * (PI / 180) * (180 / PI) * (PI / 180))
    with (pan_angle * (PI / 180)) by (field; exact PI_neq0).
  replace (tilt_angle * (PI / 180) * (180 / PI) * (PI / 180))
    with (tilt_angle * (PI / 180)) by (field; exact PI_neq0).
  by_ring.
Qed.

(** An eye after a frame: moved, without rotation, to
    [head_pos + R @ rest_offset]. *)
Lemma eye_after_frame (R0 : mat3 R) (local_pos : vec3 R)
    (eye_obj : transform R) :
  place_eye R0 local_pos eye_obj
  = Transform eye3 (vadd head_pos (matvec R0 local_pos)).
Proof.
  destruct R0 as [[a00 a01 a02] [a10 a11 a12] [a20 a21 a22]].
  destruct local_pos as [x y z].
  unfold_geometry. by_ring.
Qed.

Lemma rotation_matrix_0 :
  rotation_matrix (radians (0 : R)) (radians (0 : R)) = eye3.
Proof.
  rewrite radians_0. unfold_geometry. rewrite cos_0, sin_0. by_ring.
Qed.

Lemma matvec_eye3 (v : vec3 R) : matvec eye3 v = v.
Proof. destruct v as [x y z]. unfold_geometry. by_ring. Qed.

Lemma vadd_head_pos (v : vec3 R) : vadd head_pos v = v.
Proof. destruct v as [x y z]. unfold_geometry. by_ring. Qed.

(** Item operations accumulate on the current transform: it is the reset at
    the head of each frame that keeps a repeated sample from turning the
    head further. *)
Lemma rotate_accumulates :
  rotate (90 : R) axis_y (rotate (90 : R) axis_y t_identity)
  <> rotate (90 : R) axis_y t_identity.
Proof.
  unfold rotate, t_mul, t_rotation. rewrite radians_90.
  unfold t_identity, matmul, matvec, vadd, dot, col0, col1, col2, Ry, eye3,
    zero3.
  cbn [lin off row0 row1 row2 vx vy vz of_int fadd fmul fneg fcos fsin
       exact].
  rewrite cos_PI2, sin_PI2. intros H. injection H. lra.
Qed.

(** C4.  After every frame each eye is moved, without rotation, to
    [head_pos + R @ rest_offset], with [R] the rotation of that frame and
    the rest offsets the constants of the set-up; the head is rotated about
    [head_pos], the origin, and not moved.  For pan 0 and tilt 0 the
    rotation is the identity and the eyes are exactly at their rest offsets.
    For every arithmetic, the eye transforms are [translate] applied to the
    identity and do not depend on the scene before the frame. *)
Theorem eye_positions :
  (forall (pan_angle tilt_angle : R) (sc : scene R),
      let R0 := rotation_matrix (radians pan_angle) (radians tilt_angle) in
      left_eye (render_frame pan_angle tilt_angle sc)
      = Transform eye3 (vadd head_pos (matvec R0 left_eye_offset))
      /\ right_eye (render_frame pan_angle tilt_angle sc)
         = Transform eye3 (vadd head_pos (matvec R0 right_eye_offset))
      /\ off (head (render_frame pan_angle tilt_angle sc)) = head_pos)
  /\ (@head_pos R exact) = V3 0 0 0
  /\ rotation_matrix (radians (0 : R)) (radians (0 : R)) = eye3
  /\ (forall sc : scene R,
      off (left_eye (render_frame 0 0 sc)) = left_eye_offset
      /\ off (right_eye (render_frame 0 0 sc)) = right_eye_offset)
  /\ (forall sc : scene R,
      let sc1 := fst (fst (update little sc
                    (Datagram [x00; x00; x00; x00; x00; x00; x00; x00]))) in
      off (left_eye sc1) = left_eye_offset
      /\ off (right_eye sc1) = right_eye_offset)
  /\ (forall (F : Type) (SF : Scalar F) (pan_angle tilt_angle : F)
             (sc sc' : scene F),
      let R0 := rotation_matrix (radians pan_angle) (radians tilt_angle) in
      left_eye (render_frame pan_angle tilt_angle sc)
      = translate (vadd (matvec R0 left_eye_offset) head_pos) t_identity
      /\ right_eye (render_frame pan_angle tilt_angle sc)
         = translate (vadd (matvec R0 right_eye_offset) head_pos) t_identity
      /\ left_eye (render_frame pan_angle tilt_angle sc)
         = left_eye (render_frame pan_angle tilt_angle sc')
      /\ right_eye (render_frame pan_angle tilt_angle sc)
         = right_eye (render_frame pan_angle tilt_angle sc')).
Proof.
  assert (Hzero : forall sc : scene R,
             off (left_eye (render_frame 0 0 sc)) = left_eye_offset
             /\ off (right_eye (render_frame 0 0 sc)) = right_eye_offset).
  { intros sc. unfold render_frame. cbn [left_eye right_eye].
    rewrite !eye_after_frame. cbn [off].
    rewrite rotation_matrix_0, !matvec_eye3, !vadd_head_pos.
    split; reflexivity. }
  split.
  { intros pan_angle tilt_angle sc. cbv zeta. split; [| split].
    - unfold render_frame. cbn [left_eye]. apply eye_after_frame.
    - unfold render_frame. cbn [right_eye]. apply eye_after_frame.
    - rewrite head_after_frame. reflexivity. }
  split; [reflexivity |].
  split; [exact rotation_matrix_0 |].
  split; [exact Hzero |].
  split.
  { intros sc. cbv zeta.
    change (fst (fst (update little sc
              (Datagram [x00; x00; x00; x00; x00; x00; x00; x00]))))
      with (render_frame (0 : R) (0 : R) sc).
    apply Hzero. }
  intros F SF pan_angle tilt_angle sc sc'. cbv zeta.
  repeat split; reflexivity.
Qed.

(** C1 as stated fails in its last part: at pan 90 and tilt 0 the tilt
    rotation is the identity, so the product in the other order, [Rx @ Ry],
    sends +Z to +X as well, and this sample does not tell the two orders
    apart. *)
Lemma composition_order_counterexample :
  ~ ((forall (pan_angle tilt_angle : R) (sc : scene R),
         head (render_frame pan_angle tilt_angle sc)
         = Transform (matmul (Ry (radians pan_angle))
                             (Rx (radians tilt_angle))) zero3)
     /\ matvec (rotation_matrix (radians (90 : R)) (radians (0 : R))) unit_z
        = unit_x
     /\ matvec (swapped_rotation_matrix (radians (90 : R)) (radians (0 : R)))
               unit_z
        <> unit_x).
Proof.
  intros (_ & _ & Hswapped). apply Hswapped.
  rewrite radians_90, radians_0. unfold_geometry.
  rewrite cos_PI2, sin_PI2, cos_0, sin_0. by_ring.
Qed.

(** C1, amended.  The frame builds [R = Ry(pan) @ Rx(tilt)], which applies
    the tilt rotation first and the pan rotation second, and the head item,
    reset and then rotated by the tilt about X and by the pan about Y, has
    exactly [R] as its orientation, about the origin.  For pan 90 and tilt 0
    the head's +Z axis is sent to world +X.  That sample alone does not fix
    the order, since [Rx @ Ry] gives the same there; pan 90 and tilt 90
    does: [Ry @ Rx] sends +Z to -Y, [Rx @ Ry] sends it to +X. *)
Theorem rotation_composition :
  (forall (F : Type) (SF : Scalar F) (pan tilt : F),
      rotation_matrix pan tilt = matmul (Ry pan) (Rx tilt))
  /\ (forall (pan tilt : R) (v : vec3 R),
      matvec (rotation_matrix pan tilt) v
      = matvec (Ry pan) (matvec (Rx tilt) v))
  /\ (forall (pan tilt : R),
      rotation_matrix pan tilt
      = M3 (V3 (cos pan) (sin pan * sin tilt) (sin pan * cos tilt))
           (V3 0 (cos tilt) (- sin tilt))
           (V3 (- sin pan) (cos pan * sin tilt) (cos pan * cos tilt)))
  /\ (forall (pan_angle tilt_angle : R) (sc : scene R),
      head (render_frame pan_angle tilt_angle sc)
      = Transform (rotation_matrix (radians pan_angle) (radians tilt_angle))
                  zero3)
  /\ matvec (rotation_matrix (radians (90 : R)) (radians (0 : R))) unit_z
     = unit_x
  /\ matvec (swapped_rotation_matrix (radians (90 : R)) (radians (0 : R)))
            unit_z
     = unit_x
  /\ matvec (rotation_matrix (radians (90 : R)) (radians (90 : R))) unit_z
     = V3 0 (-1) 0
  /\ matvec (swapped_rotation_matrix (radians (90 : R)) (radians (90 : R)))
            unit_z
     = unit_x
  /\ rotation_matrix (radians (90 : R)) (radians (90 : R))
     <> swapped_rotation_matrix (radians (90 : R)) (radians (90 : R)).
Proof.
  assert (H1 : matvec (rotation_matrix (radians (90 : R)) (radians (90 : R)))
                      unit_z = V3 0 (-1) 0).
  { rewrite radians_90. unfold_geometry. rewrite cos_PI2, sin_PI2. by_ring. }
  assert (H2 : matvec (swapped_rotation_matrix (radians (90 : R))
                         (radians (90 : R))) unit_z = unit_x).
  { rewrite radians_90. unfold_geometry. rewrite cos_PI2, sin_PI2. by_ring. }
  split; [reflexivity |].
  split; [intros pan tilt v; apply matvec_matmul |].
  split; [intros pan tilt; unfold_geometry; by_ring |].
  split; [exact head_after_frame |].
  split.
  { rewrite radians_90, radians_0. unfold_geometry.
    rewrite cos_PI2, sin_PI2, cos_0, sin_0. by_ring. }
  split.
  { rewrite radians_90, radians_0. unfold_geometry.
    rewrite cos_PI2, sin_PI2, cos_0, sin_0. by_ring. }
  split; [exact H1 |].
  split; [exact H2 |].
  intros Heq. rewrite Heq, H2 in H1. unfold unit_x in H1.
  injection H1. lra.
Qed.

(** The theorem at pan 90 and tilt 90: the two orders give different
    matrices. *)
Lemma rotation_composition_witness :
  rotation_matrix (radians (90 : R)) (radians (90 : R))
  <> swapped_rotation_matrix (radians (90 : R)) (radians (90 : R)).
Proof.
  destruct rotation_composition as (_ & _ & _ & _ & _ & _ & _ & _ & Hneq).
  exact Hneq.
Defined.

End ExactFacts.

(* ================================================================== *)
(** * Further results: the attention receiver *)
(* ================================================================== *)

Lemma byte_value_range (b : byte) :
  (0 <= Z.of_N (Byte.to_N b) < 256)%Z.
Proof. destruct b; split; (discriminate || reflexivity). Qed.

Lemma le_to_Z_range (bs : list byte) :
  (0 <= struct.le_to_Z bs < 256 ^ Z.of_nat (List.length bs))%Z.
Proof.
  induction bs as [| b rest IH].
  - simpl. lia.
  - cbn [struct.le_to_Z List.length]. rewrite Nat2Z.inj_succ, Z.pow_succ_r by lia.
    pose proof (byte_value_range b). lia.
Qed.

Lemma bytes_to_Z_range (bo : byteorder) (bs : list byte) :
  (0 <= struct.bytes_to_Z bo bs < 256 ^ Z.of_nat (List.length bs))%Z.
Proof.
  destruct bo; unfold struct.bytes_to_Z.
  - apply le_to_Z_range.
  - rewrite <- length_rev. apply le_to_Z_range.
Qed.

Lemma signed64_range (w : Z) :
  (0 <= w < 2 ^ 64)%Z ->
  (- 2 ^ 63 <= struct.signed64 w < 2 ^ 63)%Z.
Proof.
  intros Hw. unfold struct.signed64.
  destruct (w <? 2 ^ 63)%Z eqn:E.
  - apply Z.ltb_lt in E. lia.
  - apply Z.ltb_ge in E. lia.
Qed.

Lemma flag_of_first_byte (b : byte) :
  negb (struct.le_to_Z [b] =? 0)%Z = negb (Byte.eqb b x00).
Proof. destruct b; reflexivity. Qed.

Lemma unpack_status_flag (bo : byteorder) (data : list byte) :
  List.length data = 16 ->
  unpack_status bo data
  = Ok (flag_byte data,
        struct.signed64 (struct.bytes_to_Z bo (struct.slice 8 8 data))).
Proof.
  intros Hlen. rewrite (unpack_bq_ok bo data Hlen).
  destruct data as [| b rest]; [discriminate |].
  unfold flag_byte. cbn [hd]. unfold struct.slice. cbn [skipn firstn].
  rewrite flag_of_first_byte. reflexivity.
Qed.

Lemma unpack_status_length (bo : byteorder) (data : list byte)
    (looking : bool) (ts : Z) :
  unpack_status bo data = Ok (looking, ts) -> List.length data = 16.
Proof.
  intros Hok. destruct (Nat.eq_dec (List.length data) 16) as [H | H];
    [exact H |].
  rewrite (unpack_bq_bad bo data H) in Hok. discriminate.
Qed.

(** The fields of a decoded attention datagram: the boolean is read from the
    first byte alone, any non-zero byte being [True], and the timestamp is a
    signed 64-bit integer. *)
Theorem attention_fields (bo : byteorder) (data : list byte)
    (looking : bool) (ts : Z) :
  unpack_status bo data = Ok (looking, ts) ->
  List.length data = 16
  /\ looking = flag_byte data
  /\ (- 2 ^ 63 <= ts < 2 ^ 63)%Z.
Proof.
  intros Hok.
  pose proof (unpack_status_length bo data looking ts Hok) as Hlen.
  rewrite (unpack_status_flag bo data Hlen) in Hok.
  injection Hok as <- <-.
  split; [exact Hlen |]. split; [reflexivity |].
  apply signed64_range.
  pose proof (bytes_to_Z_range bo (struct.slice 8 8 data)) as Hr.
  assert (Hs : List.length (struct.slice 8 8 data) = 8).
  { unfold struct.slice. rewrite length_firstn, length_skipn. lia. }
  rewrite Hs in Hr. exact Hr.
Qed.

Lemma attention_fields_witness :
  List.length datagram_looking = 16
  /\ true = flag_byte datagram_looking
  /\ (- 2 ^ 63 <= 42 < 2 ^ 63)%Z.
Proof.
  apply (attention_fields little datagram_looking true 42).
  vm_compute. reflexivity.
Defined.

Section AttentionFacts.

Variable bo : byteorder.
Variable clock : nat -> string.

Lemma recvfrom_16 (data : list byte) :
  List.length data = 16 -> recvfrom 1024 (Datagram data) = Ok data.
Proof.
  intros Hlen. cbn [recvfrom]. rewrite firstn_all2; [reflexivity | lia].
Qed.

(** The loop reads nothing of a datagram but its boolean. *)
Lemma looking_loop_same_flag (evs evs' : list net_event) :
  Forall2 same_flag evs evs' ->
  forall i last,
    looking_loop bo clock i last evs = looking_loop bo clock i last evs'.
Proof.
  induction 1 as [| ev ev' evs evs' Hev _ IH]; intros i last.
  - reflexivity.
  - cbn [looking_loop].
    destruct ev as [d | e], ev' as [d' | e']; cbn [same_flag] in Hev;
      try contradiction.
    + destruct Hev as (Hd & Hd' & Hflag).
      rewrite (recvfrom_16 d Hd), (recvfrom_16 d' Hd'). cbn [bind].
      rewrite (unpack_status_flag bo d Hd), (unpack_status_flag bo d' Hd').
      rewrite Hflag.
      destruct (latch clock i last (flag_byte d')) as [last1 out1].
      rewrite IH. reflexivity.
    + subst e'. reflexivity.
Qed.

(** The loop is alive exactly as long as every event has been a datagram of
    16 bytes. *)
Lemma looking_loop_alive (evs : list net_event) :
  forall i last,
    snd (looking_loop bo clock i last evs) = Listening
    <-> Forall (fun ev => exists d, ev = Datagram d /\ List.length d = 16)
               evs.
Proof.
  induction evs as [| ev rest IH]; intros i last.
  - split; [constructor | reflexivity].
  - cbn [looking_loop]. destruct ev as [d | e].
    + destruct (Nat.eq_dec (List.length d) 16) as [Hd | Hd].
      * rewrite (recvfrom_16 d Hd). cbn [bind].
        rewrite (unpack_status_flag bo d Hd).
        destruct (latch clock i last (flag_byte d)) as [last1 out1].
        specialize (IH (S i) last1).
        destruct (looking_loop bo clock (S i) last1 rest)
          as [[last2 out2] st].
        cbn [snd] in *. rewrite IH. split.
        -- intros H. constructor; [exists d; auto | exact H].
        -- intros H. inversion H. assumption.
      * cbn [recvfrom bind]. rewrite unpack_bq_bad
          by (rewrite length_firstn; lia).
        cbn [snd]. split; [discriminate |].
        intros H. inversion H as [| ? ? (d0 & Heq & Hlen) _]; subst.
        injection Heq as <-. contradiction.
    + cbn [recvfrom bind snd]. split; [discriminate |].
      intros H. inversion H as [| ? ? (d0 & Heq & _) _]. discriminate.
Qed.

Lemma status_text_differs (last : option bool) (looking : bool) :
  status_differs last looking = true ->
  option_map status_text last <> Some (status_text looking).
Proof.
  destruct last as [[|] |], looking; cbn; intros H; discriminate.
Qed.

Lemma last_default {A : Type} (l : list A) :
  forall b d d', List.last (b :: l) d = List.last (b :: l) d'.
Proof.
  induction l as [| a l IH]; intros b d d'; [reflexivity |].
  change (List.last (a :: l) d = List.last (a :: l) d'). apply IH.
Qed.

Lemma last_cons {A : Type} (a d : A) (l : list A) :
  List.last (a :: l) d = List.last l a.
Proof.
  destruct l as [| b l]; [reflexivity |].
  change (List.last (b :: l) d = List.last (b :: l) a). apply last_default.
Qed.

(** What the loop prints, on any events. *)
Lemma looking_loop_output (evs : list net_event) :
  forall i last,
    let '(last', out, _) := looking_loop bo clock i last evs in
    no_repeat (option_map status_text last) (printed_statuses out)
    /\ List.length (printed_statuses out) = List.length out
    /\ option_map status_text last'
       = List.last (map Some (printed_statuses out))
                   (option_map status_text last).
Proof.
  induction evs as [| ev rest IH]; intros i last.
  - cbn. auto.
  - cbn [looking_loop].
    destruct (data <- recvfrom 1024 ev ;; unpack_status bo data)
      as [[looking ts] | e]; [| cbn; auto].
    unfold latch. destruct (status_differs last looking) eqn:Hd.
    + specialize (IH (S i) (Some looking)).
      destruct (looking_loop bo clock (S i) (Some looking) rest)
        as [[last2 out2] st].
      destruct IH as (Hrep & Hlen & Hlast).
      cbn [app printed_statuses no_repeat List.length map].
      split; [split; [apply status_text_differs; exact Hd | exact Hrep] |].
      split; [rewrite Hlen; reflexivity |].
      rewrite last_cons. exact Hlast.
    + specialize (IH (S i) last).
      destruct (looking_loop bo clock (S i) last rest)
        as [[last2 out2] st].
      exact IH.
Qed.

End AttentionFacts.

(** The attention receiver reads nothing of a datagram but its boolean: two
    runs whose datagrams, all of 16 bytes, agree on the boolean of each, and
    that meet the same exceptions, print the same lines, latch the same
    value and end the same way, whatever the padding bytes and the
    timestamps are. *)
Theorem timestamp_and_padding_unused (bo : byteorder) (clock : nat -> string)
    (port : Z) (evs evs' : list net_event) :
  Forall2 same_flag evs evs' ->
  receive_looking_status bo clock port evs
  = receive_looking_status bo clock port evs'.
Proof.
  intros H. unfold receive_looking_status.
  rewrite (looking_loop_same_flag bo clock evs evs' H 0 None). reflexivity.
Qed.

Lemma timestamp_and_padding_unused_witness :
  receive_looking_status little (fun _ => "12:00:00.000") 65433
    [Datagram datagram_looking]
  = receive_looking_status little (fun _ => "12:00:00.000") 65433
      [Datagram
         [xff; x01; x02; x03; x04; x05; x06; x07;
          x00; x00; x00; x00; x00; x00; x00; x80]].
Proof.
  apply timestamp_and_padding_unused.
  constructor; [| constructor].
  cbn. repeat split; reflexivity.
Defined.

(** The attention receiver is still listening exactly when every event so
    far has been a datagram of exactly 16 bytes; a datagram of any other
    length, longer ones included, or an exception in [recvfrom], ends it,
    and then its socket is closed. *)
Theorem attention_receiver_alive (bo : byteorder) (clock : nat -> string)
    (port : Z) (evs : list net_event) :
  let run := receive_looking_status bo clock port evs in
  (lr_status run = Listening
   <-> Forall (fun ev => exists d, ev = Datagram d /\ List.length d = 16)
              evs)
  /\ (sock_closed (lr_sock run) = false
      <-> Forall (fun ev => exists d, ev = Datagram d /\ List.length d = 16)
                 evs).
Proof.
  cbv zeta.
  pose proof (looking_loop_alive bo clock evs 0 None) as Halive.
  unfold receive_looking_status.
  destruct (looking_loop bo clock 0 None evs) as [[last out] st].
  cbn [snd] in Halive. rewrite <- Halive.
  destruct st as [| | e]; [| | destruct e]; cbn; split; split;
    intros H; try discriminate; reflexivity.
Qed.

Lemma attention_receiver_alive_witness :
  lr_status (receive_looking_status little (fun _ => "12:00:00.000") 65433
               [datagram_of_sample true; datagram_of_sample false])
  = Listening.
Proof.
  apply (attention_receiver_alive little (fun _ => "12:00:00.000") 65433
           [datagram_of_sample true; datagram_of_sample false]).
  repeat constructor; eexists; split; reflexivity.
Defined.

(** On any events the attention loop prints status lines only; no printed
    status repeats the one printed before it, the first differs from the
    value latched at the start, and the value latched at the end is the one
    of the last line printed (the initial one if nothing was printed). *)
Theorem printed_statuses_alternate (bo : byteorder) (clock : nat -> string)
    (i : nat) (last : option bool) (evs : list net_event) :
  let last' := fst (fst (looking_loop bo clock i last evs)) in
  let out := snd (fst (looking_loop bo clock i last evs)) in
  no_repeat (option_map status_text last) (printed_statuses out)
  /\ List.length (printed_statuses out) = List.length out
  /\ option_map status_text last'
     = List.last (map Some (printed_statuses out))
                 (option_map status_text last).
Proof.
  cbv zeta. pose proof (looking_loop_output bo clock evs i last) as H.
  destruct (looking_loop bo clock i last evs) as [[last' out] st].
  exact H.
Qed.

(* ================================================================== *)
(** * Further results: the actuator loop *)
(* ================================================================== *)

Section ActuatorLoopFacts.

Variable bo : byteorder.
Variable Robot : Type.
Variable set_joint_position :
  Robot -> string -> spec_float -> Robot * result unit.



Lemma control_loop_status (evs : list net_event) :
  forall robot,
    let st := snd (control_loop bo set_joint_position robot evs) in
    (st = Listening \/ st = Propagated KeyboardInterrupt)
    /\ (In (RecvRaises KeyboardInterrupt) evs ->
        st = Propagated KeyboardInterrupt).
Proof.
  induction evs as [| ev rest IH]; intros robot; cbv zeta.
  - split; [left; reflexivity | intros []].
  - cbn [control_loop].
    pose proof (control_iteration_raises bo Robot set_joint_position
                  robot ev) as Hr.
    destruct (control_iteration bo set_joint_position robot ev)
      as [[[robot1 out1] cmds1] raised] eqn:Hit.
    cbn [snd] in Hr. destruct raised as [e |].
    + rewrite (Hr e eq_refl). cbn [snd].
      split; [right; reflexivity | reflexivity].
    + specialize (IH robot1). cbv zeta in IH.
      destruct (control_loop bo set_joint_position robot1 rest)
        as [[[robot2 out2] cmds2] st].
      cbn [snd] in *. destruct IH as [IH1 IH2]. split; [exact IH1 |].
      intros [Hhead | Htail]; [| exact (IH2 Htail)].
      subst ev. cbn in Hit. discriminate.
Qed.

(** With a robot whose calls all return, the calls made are those of the
    events, in order. *)
Lemma control_loop_reliable (evs : list net_event) :
  (forall r j a, snd (set_joint_position r j a) = Ok tt) ->
  Forall (fun ev => ev <> RecvRaises KeyboardInterrupt) evs ->
  forall robot,
    snd (fst (control_loop bo set_joint_position robot evs))
    = flat_map (commands_of_event bo) evs.
Proof.
  intros Hok Hevs. induction Hevs as [| ev rest Hev _ IH]; intros robot.
  - reflexivity.
  - cbn [control_loop flat_map].
    assert (Hit : exists robot1 out1,
               control_iteration bo set_joint_position robot ev
               = (robot1, out1, commands_of_event bo ev, None)).
    { unfold control_iteration, control_body, commands_of_event,
        receive_sample.
      destruct (data <- recvfrom 1024 ev ;; unpack_angles bo data)
        as [[pan tilt] | e] eqn:Hrecv.
      - pose proof (Hok robot "head_0" pan) as H1.
        destruct (set_joint_position robot "head_0" pan) as [robot1 r1].
        cbn [snd] in H1. subst r1.
        pose proof (Hok robot1 "head_1" tilt) as H2.
        destruct (set_joint_position robot1 "head_1" tilt) as [robot2 r2].
        cbn [snd] in H2. subst r2. eexists _, _. reflexivity.
      - destruct e; try (eexists _, _; reflexivity).
        exfalso. destruct ev as [d | e0].
        + cbn [recvfrom bind] in Hrecv.
          destruct (Nat.eq_dec (List.length (firstn 1024 d)) 8) as [H8 | H8].
          * rewrite (unpack_angles_ok bo _ H8) in Hrecv. discriminate.
          * rewrite (unpack_angles_bad bo _ H8) in Hrecv. discriminate.
        + cbn in Hrecv. injection Hrecv as ->. apply Hev. reflexivity. }
    destruct Hit as (robot1 & out1 & ->).
    specialize (IH robot1).
    destruct (control_loop bo set_joint_position robot1 rest)
      as [[[robot2 out2] cmds2] st].
    cbn [fst snd] in *. rewrite IH. reflexivity.
Qed.

End ActuatorLoopFacts.

(** The actuator loop never returns: after any events it is still listening
    or has been left by a [KeyboardInterrupt], the only exception its handler
    lets through; an interrupt among the events always ends it; and, if the
    robot only fails with exceptions of class [Exception], it is listening
    exactly when no interrupt has come, whatever else [recvfrom] raised. *)
Theorem actuator_loop_exit (bo : byteorder) (Robot : Type)
    (set_joint_position :
       Robot -> string -> spec_float -> Robot * result unit)
    (robot : Robot) (port : Z) (evs : list net_event) :
  let run := control_robot bo set_joint_position robot port evs in
  (cr_status run = Listening
   \/ cr_status run = Propagated KeyboardInterrupt)
  /\ (In (RecvRaises KeyboardInterrupt) evs ->
      cr_status run = Propagated KeyboardInterrupt)
  /\ (commands_fail_softly set_joint_position ->
      (cr_status run = Listening
       <-> ~ In (RecvRaises KeyboardInterrupt) evs)).
Proof.
  cbv zeta.
  pose proof (control_loop_status bo Robot set_joint_position evs robot)
    as Hst.
  pose proof (control_loop_listening bo Robot set_joint_position evs robot)
    as Hlisten.
  unfold control_robot.
  destruct (control_loop bo set_joint_position robot evs)
    as [[[robot1 out] cmds] st].
  cbn [cr_status snd] in *. destruct Hst as [H1 H2].
  split; [exact H1 |]. split; [exact H2 |].
  intros Hsoft. split.
  - intros -> Hin. specialize (H2 Hin). discriminate.
  - intros Hnot. apply Hlisten; [| exact Hsoft].
    apply Forall_forall. intros ev Hin ->. exact (Hnot Hin).
Qed.

Lemma actuator_loop_exit_witness :
  cr_status (control_robot little stuck_pan_robot tt 65432
               [Datagram datagram_45_m20; RecvRaises OSError;
                RecvRaises KeyboardInterrupt; Datagram datagram_45_m20])
  = Propagated KeyboardInterrupt.
Proof.
  apply (actuator_loop_exit little unit stuck_pan_robot tt 65432).
  cbn. auto.
Defined.


(** With a robot whose calls all return, and no interrupt, the commands
    issued are exactly those of the datagrams that decode, two per datagram
    and in the order of arrival; datagrams of another length and failed
    receives add nothing and take nothing away. *)
Theorem actuator_commands_reliable (bo : byteorder) (Robot : Type)
    (set_joint_position :
       Robot -> string -> spec_float -> Robot * result unit)
    (robot : Robot) (port : Z) (evs : list net_event) :
  (forall r j a, snd (set_joint_position r j a) = Ok tt) ->
  Forall (fun ev => ev <> RecvRaises KeyboardInterrupt) evs ->
  cr_commands (control_robot bo set_joint_position robot port evs)
  = flat_map (commands_of_event bo) evs.
Proof.
  intros Hok Hevs.
  pose proof (control_loop_reliable bo Robot set_joint_position evs Hok Hevs
                robot) as H.
  unfold control_robot.
  destruct (control_loop bo set_joint_position robot evs)
    as [[[robot1 out] cmds] st].
  exact H.
Qed.

Lemma actuator_commands_reliable_witness :
  cr_commands (control_robot little obedient_robot tt 65432
                 [Datagram datagram_45_m20; Datagram datagram_unpadded;
                  RecvRaises OSError; Datagram datagram_45_m20])
  = [Command "head_0" float_45; Command "head_1" float_m20;
     Command "head_0" float_45; Command "head_1" float_m20].
Proof.
  rewrite (actuator_commands_reliable little unit obedient_robot tt 65432).
  - vm_compute. reflexivity.
  - intros r j a. reflexivity.
  - repeat constructor; discriminate.
Defined.

(* ================================================================== *)
(** * Further results: the viewer *)
(* ================================================================== *)

Lemma receive_sample_interrupt (bo : byteorder) (ev : net_event) :
  receive_sample bo ev = Raise KeyboardInterrupt ->
  ev = RecvRaises KeyboardInterrupt.
Proof.
  unfold receive_sample. destruct ev as [d | e]; cbn [recvfrom bind].
  - destruct (Nat.eq_dec (List.length (firstn 1024 d)) 8) as [H8 | H8].
    + rewrite (unpack_angles_ok bo _ H8). discriminate.
    + rewrite (unpack_angles_bad bo _ H8). discriminate.
  - intros [= ->]. reflexivity.
Qed.

Section ViewerFacts.

Context {F : Type} {SF : Scalar F}.
Variable bo : byteorder.

(** A tick either leaves the scene as it is or shows the sample it
    received; only an interrupt leaves [update]. *)
Lemma update_cases (sc : scene F) (ev : net_event) :
  (exists pan_angle tilt_angle,
      receive_sample bo ev = Ok (pan_angle, tilt_angle)
      /\ update bo sc ev
         = (render_frame (of_float pan_angle) (of_float tilt_angle) sc,
            [log_update pan_angle tilt_angle], None))
  \/ (exists e,
         receive_sample bo ev = Raise e /\ e <> KeyboardInterrupt
         /\ fst (fst (update bo sc ev)) = sc /\ snd (update bo sc ev) = None)
  \/ (ev = RecvRaises KeyboardInterrupt
      /\ update bo sc ev = (sc, [], Some KeyboardInterrupt)).
Proof.
  unfold update.
  destruct (receive_sample bo ev) as [[pan tilt] | e] eqn:Hrecv.
  - left. exists pan, tilt. split; reflexivity.
  - destruct e;
      try (right; left; eexists; split; [reflexivity |];
           split; [discriminate | split; reflexivity]).
    right; right. split; [| reflexivity].
    apply (receive_sample_interrupt bo ev Hrecv).
Qed.

Lemma render_frame_over (pan_angle tilt_angle : F)
    (acc : option (spec_float * spec_float)) (sc0 : scene F) :
  render_frame pan_angle tilt_angle (scene_of acc sc0)
  = render_frame pan_angle tilt_angle sc0.
Proof. destruct acc as [[p t] |]; reflexivity. Qed.

Lemma run_ticks_last (evs : list net_event) :
  forall acc sc0,
    Forall (fun ev => ev <> RecvRaises KeyboardInterrupt) evs ->
    fst (fst (run_ticks bo (scene_of acc sc0) evs))
    = scene_of (last_sample bo acc evs) sc0
    /\ snd (run_ticks bo (scene_of acc sc0) evs) = Listening.
Proof.
  induction evs as [| ev rest IH]; intros acc sc0 Hevs.
  - split; reflexivity.
  - inversion Hevs as [| ? ? Hev Hrest]; subst.
    cbn [run_ticks last_sample].
    destruct (update_cases (scene_of acc sc0) ev)
      as [(p & t & Hrecv & Hup) | [(e & Hrecv & Hne & Hsc & Hnone) | (Hki & _)]].
    + rewrite Hup, Hrecv. rewrite render_frame_over.
      specialize (IH (Some (p, t)) sc0 Hrest). cbn [scene_of] in IH.
      destruct (run_ticks bo
                  (render_frame (of_float p) (of_float t) sc0) rest)
        as [[sc2 out2] st].
      exact IH.
    + rewrite Hrecv.
      destruct (update bo (scene_of acc sc0) ev) as [[sc1 out1] raised].
      cbn [fst snd] in Hsc, Hnone. subst sc1 raised.
      specialize (IH acc sc0 Hrest).
      destruct (run_ticks bo (scene_of acc sc0) rest) as [[sc2 out2] st].
      exact IH.
    + contradiction.
Qed.

Lemma run_ticks_neck (evs : list net_event) :
  forall sc,
    neck (fst (fst (run_ticks bo sc evs))) = neck sc
    /\ (snd (run_ticks bo sc evs) = Listening
        \/ snd (run_ticks bo sc evs) = Propagated KeyboardInterrupt).
Proof.
  induction evs as [| ev rest IH]; intros sc.
  - split; [reflexivity | left; reflexivity].
  - cbn [run_ticks].
    destruct (update_cases sc ev)
      as [(p & t & _ & Hup) | [(e & _ & _ & Hsc & Hnone) | (_ & Hup)]].
    + rewrite Hup.
      specialize (IH (render_frame (of_float p) (of_float t) sc)).
      destruct (run_ticks bo
                  (render_frame (of_float p) (of_float t) sc) rest)
        as [[sc2 out2] st].
      exact IH.
    + destruct (update bo sc ev) as [[sc1 out1] raised].
      cbn [fst snd] in Hsc, Hnone. subst sc1 raised.
      specialize (IH sc).
      destruct (run_ticks bo sc rest) as [[sc2 out2] st].
      exact IH.
    + rewrite Hup. split; [reflexivity | right; reflexivity].
Qed.




End ViewerFacts.

(** The viewer shows the latest sample only: after any ticks without an
    interrupt, the scene is the set-up with the frame of the last datagram
    that decoded, as if no other datagram had ever come, and it is the scene
    the ticks started from if none decoded; the loop is still running. *)
Theorem latest_sample_shown (bo : byteorder) (F : Type) (SF : Scalar F)
    (sc : scene F) (evs : list net_event) :
  Forall (fun ev => ev <> RecvRaises KeyboardInterrupt) evs ->
  fst (fst (run_ticks bo sc evs)) = scene_of (last_sample bo None evs) sc
  /\ snd (run_ticks bo sc evs) = Listening.
Proof.
  intros Hevs. exact (run_ticks_last bo evs None sc Hevs).
Qed.

Lemma latest_sample_shown_witness :
  fst (fst (run_ticks little (@initial_scene R exact)
              [Datagram datagram_45_m20; RecvRaises BlockingIOError;
               Datagram datagram_unpadded]))
  = render_frame (sf_to_R float_45) (sf_to_R float_m20) initial_scene.
Proof.
  apply (latest_sample_shown little R exact initial_scene
           [Datagram datagram_45_m20; RecvRaises BlockingIOError;
            Datagram datagram_unpadded]).
  repeat constructor; discriminate.
Defined.

(** No tick ever moves the neck, and the timer loop is only ever left by a
    [KeyboardInterrupt]: every other exception of a tick is absorbed. *)
Theorem neck_is_fixed :
  forall (bo : byteorder) (F : Type) (SF : Scalar F) (sc : scene F)
         (evs : list net_event),
    neck (fst (fst (run_ticks bo sc evs))) = neck sc
    /\ (snd (run_ticks bo sc evs) = Listening
        \/ snd (run_ticks bo sc evs) = Propagated KeyboardInterrupt).
Proof.
  intros bo F SF sc evs. apply run_ticks_neck.
Qed.



(* ================================================================== *)
(** * Further results in exact arithmetic *)
(* ================================================================== *)

Section RotationFacts.

Local Open Scope R_scope.

Lemma sin_cos_square (x : R) : sin x * sin x + cos x * cos x = 1.
Proof. exact (sin2_cos2 x). Qed.

Lemma Rx_rigid (tilt : R) (u v : vec3 R) :
  dot (matvec (Rx tilt) u) (matvec (Rx tilt) v) = dot u v.
Proof.
  destruct u as [ux uy uz], v as [wx wy wz]. unfold_geometry.
  transitivity (ux * wx
                + (sin tilt * sin tilt + cos tilt * cos tilt)
                  * (uy * wy + uz * wz)); [ring |].
  rewrite sin_cos_square. ring.
Qed.

Lemma Ry_rigid (pan : R) (u v : vec3 R) :
  dot (matvec (Ry pan) u) (matvec (Ry pan) v) = dot u v.
Proof.
  destruct u as [ux uy uz], v as [wx wy wz]. unfold_geometry.
  transitivity (uy * wy
                + (sin pan * sin pan + cos pan * cos pan)
                  * (ux * wx + uz * wz)); [ring |].
  rewrite sin_cos_square. ring.
Qed.

Lemma radians_30 : radians (30 : R) = PI / 6.
Proof. cbn. field. Qed.

Lemma radians_150 : radians (150 : R) = PI - PI / 6.
Proof. cbn. field. Qed.

Lemma cos_PI_minus (x : R) : cos (PI - x) = - cos x.
Proof. rewrite cos_minus, cos_PI, sin_PI. ring. Qed.

Lemma sqrt3_square : sqrt 3 * sqrt 3 = 3.
Proof. apply sqrt_sqrt. lra. Qed.

Lemma left_eye_offset_value :
  left_eye_offset = V3 (- sqrt 3 / 4) (1 / 4) (sqrt 3 / 2).
Proof.
  unfold left_eye_offset, theta, phi_left, r_val. cbn [of_int exact].
  rewrite radians_30, radians_150.
  cbn [fmul fsin fcos of_int exact].
  rewrite cos_PI_minus, sin_PI_x, sin_PI6, cos_PI6.
  f_equal; field.
Qed.

Lemma right_eye_offset_value :
  right_eye_offset = V3 (sqrt 3 / 4) (1 / 4) (sqrt 3 / 2).
Proof.
  unfold right_eye_offset, theta, phi_right, r_val. cbn [of_int exact].
  rewrite radians_30.
  cbn [fmul fsin fcos of_int exact].
  rewrite sin_PI6, cos_PI6.
  f_equal; field.
Qed.

Lemma radians_turns (x : R) (k : nat) :
  radians (x + 360 * INR k) = radians x + 2 * INR k * PI.
Proof. cbn. field. Qed.

Lemma rotation_matrix_turns (pan_angle tilt_angle : R) (k m : nat) :
  rotation_matrix (radians (pan_angle + 360 * INR k))
                  (radians (tilt_angle + 360 * INR m))
  = rotation_matrix (radians pan_angle) (radians tilt_angle).
Proof.
  rewrite !radians_turns.
  unfold rotation_matrix, Rx, Ry. cbn [fcos fsin exact].
  rewrite !cos_period, !sin_period. reflexivity.
Qed.

(** A frame, written with the rotation matrix of its sample. *)
Lemma render_frame_exact (pan_angle tilt_angle : R) (sc : scene R) :
  render_frame pan_angle tilt_angle sc
  = let R0 := rotation_matrix (radians pan_angle) (radians tilt_angle) in
    Scene (Transform R0 zero3) (neck sc)
          (place_eye R0 left_eye_offset t_identity)
          (place_eye R0 right_eye_offset t_identity).
Proof.
  cbv zeta. unfold render_frame. f_equal.
  exact (head_after_frame pan_angle tilt_angle sc).
Qed.

Lemma rotation_matrix_rigid (pan tilt : R) (u v : vec3 R) :
  dot (matvec (rotation_matrix pan tilt) u)
      (matvec (rotation_matrix pan tilt) v)
  = dot u v.
Proof.
  unfold rotation_matrix.
  rewrite !matvec_matmul, Ry_rigid, Rx_rigid. reflexivity.
Qed.

End RotationFacts.

(** The rotation of a frame is rigid: for every pan and tilt it keeps the
    inner product of any two vectors, hence lengths and angles. *)
Theorem rotation_is_rigid :
  forall (pan tilt : R) (u v : vec3 R),
    dot (matvec (rotation_matrix pan tilt) u)
        (matvec (rotation_matrix pan tilt) v)
    = dot u v.
Proof. exact rotation_matrix_rigid. Qed.

(** The eyes rest at (-sqrt 3 / 4, 1/4, sqrt 3 / 2) and
    (sqrt 3 / 4, 1/4, sqrt 3 / 2), mirror images of each other on the unit
    sphere; and after every frame, for every pan and tilt, each eye is at
    distance 1 from the centre of the head, on the surface of the head
    sphere, with the angle between the two eyes as at rest. *)
Theorem eyes_stay_on_head :
  forall (pan_angle tilt_angle : R) (sc : scene R),
    let l := off (left_eye (render_frame pan_angle tilt_angle sc)) in
    let r := off (right_eye (render_frame pan_angle tilt_angle sc)) in
    left_eye_offset = V3 (- sqrt 3 / 4)%R (1 / 4)%R (sqrt 3 / 2)%R
    /\ right_eye_offset = V3 (sqrt 3 / 4)%R (1 / 4)%R (sqrt 3 / 2)%R
    /\ dot l l = 1%R /\ dot r r = 1%R
    /\ dot l r = dot (@left_eye_offset R exact) right_eye_offset
    /\ dot l r = (5 / 8)%R.
Proof.
  intros pan_angle tilt_angle sc. cbv zeta.
  assert (Hll : dot (@left_eye_offset R exact) left_eye_offset = 1%R).
  { rewrite left_eye_offset_value. unfold_geometry.
    transitivity ((5 * (sqrt 3 * sqrt 3) + 1) / 16)%R;
      [field | rewrite sqrt3_square; field]. }
  assert (Hrr : dot (@right_eye_offset R exact) right_eye_offset = 1%R).
  { rewrite right_eye_offset_value. unfold_geometry.
    transitivity ((5 * (sqrt 3 * sqrt 3) + 1) / 16)%R;
      [field | rewrite sqrt3_square; field]. }
  assert (Hlr : dot (@left_eye_offset R exact) right_eye_offset = (5 / 8)%R).
  { rewrite left_eye_offset_value, right_eye_offset_value. unfold_geometry.
    transitivity ((1 + 3 * (sqrt 3 * sqrt 3)) / 16)%R;
      [field | rewrite sqrt3_square; field]. }
  unfold render_frame. cbn [left_eye right_eye].
  rewrite !eye_after_frame. cbn [off].
  rewrite !vadd_head_pos, !rotation_matrix_rigid.
  split; [exact left_eye_offset_value |].
  split; [exact right_eye_offset_value |].
  auto.
Qed.

(** Angles count modulo 360 degrees: a sample whose pan and tilt are off by
    whole turns gives the same frame, transform for transform. *)
Theorem frame_period_360 :
  forall (pan_angle tilt_angle : R) (k m : nat) (sc : scene R),
    render_frame (pan_angle + 360 * INR k)%R (tilt_angle + 360 * INR m)%R sc
    = render_frame pan_angle tilt_angle sc.
Proof.
  intros pan_angle tilt_angle k m sc.
  rewrite !render_frame_exact. cbv zeta.
  rewrite rotation_matrix_turns. reflexivity.
Qed.
